(** * Connection management core of the raptor TCP server

    Shallow embedding of [src/core/linux/tcp_server.cc] (module [Linux]) and
    of the differing parts of [src/core/windows/tcp_server.cc] (module
    [Windows]).

    Modelling conventions:
    - a 64-bit [ConnectionId], the 16-bit magic number, times ([time_t]) and
      option values are [Z]; slot indices used as vector positions are [nat];
    - [_mgr] ([std::vector<ConnectionData>]) is a [list Slot]; [_mgr[i]] with
      [i] out of range is undefined behaviour, as is a call through a null
      [Connection*] and erasing a [multimap] iterator that does not point to
      an element: every such point yields [None] ("the program faults");
    - the [std::multimap<time_t, uint32_t>] timeout index is a list of
      entries kept in iteration order; an iterator is the node identity
      [tid] of an entry, [None] standing for [end()] (or a value-initialised
      iterator);
    - external collaborators (connection objects, listener, I/O threads)
      appear as effects in an output trace, and their boolean answers are
      inputs of the operations. *)

From Stdlib Require Import ZArith String Lia Sorting.Sorted.
From stdpp Require Import base list.

Open Scope Z_scope.

(** ** Connection identifier codec *)

(** Modelled from the spec: [core::BuildConnectionId], [core::GetMagicNumber]
    and [core::GetUserId] are not in the sources; the spec gives the layout
    [magic:16 | listen_port:16 | slot_index:32] of the 64-bit handle. *)
Definition BuildConnectionId (magic listen_port index : Z) : Z :=
  Z.lor (Z.shiftl (Z.land magic 65535) 48)
        (Z.lor (Z.shiftl (Z.land listen_port 65535) 32)
               (Z.land index 4294967295)).

(** Modelled from the spec: [core::GetMagicNumber] (bits 48..63). *)
Definition GetMagicNumber (cid : Z) : Z := Z.land (Z.shiftr cid 48) 65535.

(** Modelled from the spec: [core::GetUserId] (bits 0..31). *)
Definition GetUserId (cid : Z) : Z := Z.land cid 4294967295.

(** [constexpr uint32_t InvalidIndex = static_cast<uint32_t>(-1);] *)
Definition InvalidIndex : Z := 4294967295.

(** [enum { RESERVED_CONNECTION_COUNT = 100 };] *)
Definition RESERVED_CONNECTION_COUNT : nat := 100.

(** ** Server state *)

(** [RaptorOptions]: [max_connections] is a [uint32_t], [connection_timeout]
    a number of seconds. *)
Record RaptorOptions := mkOptions {
  max_connections : Z;
  connection_timeout : Z
}.

(** [ConnectionData = std::pair<Connection*, TimeoutRecord::iterator>]:
    [first] is the connection object (its identity), [None] being
    [nullptr]; [second] is the iterator into the timeout index. *)
Record Slot := mkSlot {
  first : option nat;
  second : option nat
}.

Definition empty_slot : Slot := mkSlot None None.

(** One node of [TimeoutRecord]: key [deadline], value the slot index. *)
Record Entry := mkEntry {
  tid : nat;
  deadline : Z;
  eidx : nat
}.

Inductive MessageType := kNewConnection | kRecvAMessage | kCloseClient.

Record TcpMessageNode := mkMsg {
  mtype : MessageType;
  mcid : Z
}.

Record TcpServer := mkServer {
  shutdown : bool;                  (* _shutdown *)
  components : bool;                (* _listener and I/O threads allocated *)
  options : RaptorOptions;          (* _options *)
  mgr : list Slot;                  (* _mgr *)
  timeout_record_list : list Entry; (* _timeout_record_list *)
  free_index_list : list nat;       (* _free_index_list *)
  magic_number : Z;                 (* _magic_number *)
  last_timeout_time : Z;            (* _last_timeout_time *)
  mpscq : list TcpMessageNode;      (* _mpscq *)
  count : Z;                        (* _count *)
  next_id : nat                     (* allocator for new objects and nodes *)
}.

(** The freshly constructed server: [_shutdown(true)], nothing allocated. *)
Definition new_server : TcpServer :=
  mkServer true false (mkOptions 0 0) [] [] [] 0 0 [] 0 0.

(** Observable effects on collaborators. *)
Inductive Effect :=
  | LogError (msg : string)
  | SocketShutdown (sock : Z)
  | ConnNew (c : nat)
  | ConnSetProtocol (c : nat)
  | ConnInit (c : nat) (cid sock : Z)
  | ConnShutdown (c : nat) (abrupt : bool)
  | ConnDelete (c : nat)
  | ConnSend (c : nat)
  | ConnDoRecv (c : nat)
  | ConnDoSend (c : nat)
  | ConnAsyncRecv (c : nat)
  | RsAdd (sock cid : Z)
  | ListenerInit | RecvThreadInit | SendThreadInit
  | ListenerStart | RecvThreadStart | SendThreadStart | MqThreadStart
  | ListenerShutdown | RecvThreadShutdown | SendThreadShutdown
  | CvSignal | MqThreadJoin.

(** [raptor_error]: [RAPTOR_ERROR_NONE] or an error carrying a message. *)
Inductive Status := ErrorNone | Error (msg : string).

(** The error object returned by [AddListeningPort]: [RAPTOR_ERROR_NONE], or
    an error (identified by its text) followed by the texts appended to it
    with [AppendMessage]. *)
Inductive ErrorChain := ChainNone | ChainError (msg : string) (appended : list string).

(** Calls on the per-connection data of a connection object. *)
Inductive DataCall :=
  | ConnSetUserData (c : nat) (ptr : Z)
  | ConnGetUserData (c : nat)
  | ConnSetExtendInfo (c : nat) (data : Z)
  | ConnGetExtendInfo (c : nat).

(** ** Record-update helpers *)

Definition set_mgr (m : list Slot) (s : TcpServer) : TcpServer :=
  mkServer (shutdown s) (components s) (options s) m (timeout_record_list s)
    (free_index_list s) (magic_number s) (last_timeout_time s) (mpscq s)
    (count s) (next_id s).

Definition set_timeouts (t : list Entry) (s : TcpServer) : TcpServer :=
  mkServer (shutdown s) (components s) (options s) (mgr s) t
    (free_index_list s) (magic_number s) (last_timeout_time s) (mpscq s)
    (count s) (next_id s).

Definition set_free (f : list nat) (s : TcpServer) : TcpServer :=
  mkServer (shutdown s) (components s) (options s) (mgr s)
    (timeout_record_list s) f (magic_number s) (last_timeout_time s)
    (mpscq s) (count s) (next_id s).

Definition set_next_id (n : nat) (s : TcpServer) : TcpServer :=
  mkServer (shutdown s) (components s) (options s) (mgr s)
    (timeout_record_list s) (free_index_list s) (magic_number s)
    (last_timeout_time s) (mpscq s) (count s) n.

Definition set_last_timeout_time (t : Z) (s : TcpServer) : TcpServer :=
  mkServer (shutdown s) (components s) (options s) (mgr s)
    (timeout_record_list s) (free_index_list s) (magic_number s) t
    (mpscq s) (count s) (next_id s).

Definition set_shutdown (b : bool) (s : TcpServer) : TcpServer :=
  mkServer b (components s) (options s) (mgr s)
    (timeout_record_list s) (free_index_list s) (magic_number s)
    (last_timeout_time s) (mpscq s) (count s) (next_id s).

(** ** The timeout index ([std::multimap<time_t, uint32_t>]) *)

(** [insert]: a new node goes after every node with an equal key. *)
Fixpoint tl_insert (e : Entry) (l : list Entry) : list Entry :=
  match l with
  | [] => [e]
  | x :: r => if deadline e <? deadline x then e :: x :: r
              else x :: tl_insert e r
  end.

Definition tl_mem (t : nat) (l : list Entry) : bool :=
  existsb (fun x => Nat.eqb (tid x) t) l.

(** [erase(it)]: defined only when [it] points to a node of the map. *)
Definition tl_erase (it : option nat) (l : list Entry) : option (list Entry) :=
  match it with
  | None => None
  | Some t => if tl_mem t l then Some (List.filter (fun x => negb (Nat.eqb (tid x) t)) l)
              else None
  end.

(** [std::vector::resize]. *)
Definition resize (n : nat) (l : list Slot) : list Slot :=
  firstn n l ++ repeat empty_slot (n - length l).

(** [it->second] / [++it] on the timeout index, by node identity. *)
Definition tl_find (t : nat) (l : list Entry) : option Entry :=
  List.find (fun x => Nat.eqb (tid x) t) l.

Fixpoint tl_next (t : nat) (l : list Entry) : option nat :=
  match l with
  | [] => None
  | x :: r =>
      if Nat.eqb (tid x) t
      then match r with [] => None | y :: _ => Some (tid y) end
      else tl_next t r
  end.

Definition tl_begin (l : list Entry) : option nat :=
  match l with [] => None | x :: _ => Some (tid x) end.

(** [let? x := m in k] in the option monad: [None] is a fault. *)
Notation "'let?' x ':=' m 'in' k" := (match m with Some x => k | None => None end)
  (at level 200, x name, m at level 100, k at level 200).

(** ** Validation, shared by both platforms *)

Section Validation.

(** [core::InvalidConnectionId]: the spec leaves the sentinel open ("all-ones
    or zero; chosen once and fixed"), so it is a parameter. *)
Variable InvalidConnectionId : Z.

(** [TcpServer::CheckConnectionId] (identical on Linux and Windows). *)
Definition CheckConnectionId (s : TcpServer) (cid : Z) : Z :=
  let failure := InvalidIndex in
  if cid =? InvalidConnectionId then failure
  else
    let magic := GetMagicNumber cid in
    if negb (magic =? magic_number s) then failure
    else
      let uid := GetUserId cid in
      if uid >=? max_connections (options s) then failure
      else uid.

End Validation.

(** ** Linux implementation ([src/core/linux/tcp_server.cc]) *)

Module Linux.
Section Ops.

Variable InvalidConnectionId : Z.

Let Check := CheckConnectionId InvalidConnectionId.

(** [TcpServer::Init]; [listener_ok], [recv_ok], [send_ok] are the results
    of the three sub-component [Init] calls, [now] is [Now()]. *)
Definition Init (s : TcpServer) (opts : RaptorOptions) (now : Z)
    (listener_ok recv_ok send_ok : bool) : Status * TcpServer * list Effect :=
  if negb (shutdown s) then (Error "tcp server already running", s, [])
  else
    let s1 := mkServer (shutdown s) true (options s) (mgr s)
                (timeout_record_list s) (free_index_list s) (magic_number s)
                (last_timeout_time s) (mpscq s) (count s) (next_id s) in
    if negb listener_ok then (Error "listener init", s1, [ListenerInit])
    else if negb recv_ok then
      (Error "recv thread init", s1, [ListenerInit; RecvThreadInit])
    else if negb send_ok then
      (Error "send thread init", s1, [ListenerInit; RecvThreadInit; SendThreadInit])
    else
      (ErrorNone,
       mkServer false true opts (resize RESERVED_CONNECTION_COUNT (mgr s))
         (timeout_record_list s)
         (free_index_list s ++ seq 0 RESERVED_CONNECTION_COUNT)
         (Z.land (Z.shiftr now 16) 65535) now (mpscq s) 0 (next_id s),
       [ListenerInit; RecvThreadInit; SendThreadInit]).

(** [TcpServer::Start]: [None] when [_listener] is still [nullptr]. *)
Definition Start (s : TcpServer) (listener_ok recv_ok send_ok : bool)
    : option (Status * list Effect) :=
  if negb (components s) then None
  else if negb listener_ok then
    Some (Error "failed to start listener", [ListenerStart])
  else if negb recv_ok then
    Some (Error "failed to start recv thread", [ListenerStart; RecvThreadStart])
  else if negb send_ok then
    Some (Error "failed to start send thread",
          [ListenerStart; RecvThreadStart; SendThreadStart])
  else Some (ErrorNone,
             [ListenerStart; RecvThreadStart; SendThreadStart; MqThreadStart]).

(** The [for (auto& obj : _mgr)] loop of [Shutdown]. *)
Definition shutdown_slots (m : list Slot) : list Effect :=
  flat_map (fun sl => match first sl with
                      | Some c => [ConnShutdown c false; ConnDelete c]
                      | None => []
                      end) m.

(** [TcpServer::Shutdown]; the message-queue drain pops every node and
    decrements [_count] once per node. *)
Definition Shutdown (s : TcpServer) : TcpServer * list Effect :=
  if negb (shutdown s) then
    (mkServer true (components s) (options s) [] [] [] (magic_number s)
       (last_timeout_time s) []
       (count s - Z.of_nat (length (mpscq s))) (next_id s),
     [ListenerShutdown; RecvThreadShutdown; SendThreadShutdown; CvSignal;
      MqThreadJoin] ++ shutdown_slots (mgr s))
  else (s, []).

(** [TcpServer::~TcpServer]. *)
Definition destroy (s : TcpServer) : TcpServer * list Effect :=
  if negb (shutdown s) then Shutdown s else (s, []).

(** [TcpServer::Send]; [conn_ok] is the answer of [Connection::Send]. *)
Definition Send (s : TcpServer) (cid : Z) (conn_ok : bool)
    : option (bool * list Effect) :=
  let index := Check s cid in
  if index =? InvalidIndex then Some (false, [])
  else
    let? sl := mgr s !! Z.to_nat index in
    match first sl with
    | Some c => Some (conn_ok, [ConnSend c])
    | None => Some (false, [])
    end.

(** [TcpServer::DeleteConnection]. *)
Definition DeleteConnection (s : TcpServer) (index : nat)
    : option (TcpServer * list Effect) :=
  let? sl := mgr s !! index in
  let eff := match first sl with Some c => [ConnDelete c] | None => [] end in
  let? tl := tl_erase (second sl) (timeout_record_list s) in
  Some (set_free (free_index_list s ++ [index])
          (set_timeouts tl (set_mgr (<[index := empty_slot]> (mgr s)) s)),
        eff).

(** The growth step of [OnNewConnection] (free list empty, below the cap). *)
Definition grow (s : TcpServer) : TcpServer :=
  let cnt := length (mgr s) in
  let maxc := Z.to_nat (max_connections (options s)) in
  let expand := if Nat.ltb (cnt * 2)%nat maxc then (cnt * 2)%nat else maxc in
  set_free (free_index_list s ++ seq cnt (expand - cnt)%nat)
    (set_mgr (resize expand (mgr s)) s).

(** [TcpServer::OnNewConnection]; [now] is [Now()]. *)
Definition OnNewConnection (s : TcpServer) (sock listen_port now : Z)
    : option (TcpServer * list Effect) :=
  if (match free_index_list s with [] => true | _ => false end)
     && (Z.of_nat (length (mgr s)) >=? max_connections (options s))
  then Some (s, [LogError "The maximum number of connections has been reached";
                 SocketShutdown sock])
  else
    let s1 := match free_index_list s with [] => grow s | _ => s end in
    match free_index_list s1 with
    | [] => None
    | index :: rest =>
        let cid := BuildConnectionId (magic_number s1) listen_port (Z.of_nat index) in
        let deadline_seconds := now + connection_timeout (options s1) in
        let c := next_id s1 in
        let t := S (next_id s1) in
        let? sl := mgr s1 !! index in
        Some (set_next_id (S t)
                (set_timeouts (tl_insert (mkEntry t deadline_seconds index)
                                 (timeout_record_list s1))
                   (set_mgr (<[index := mkSlot (Some c) (Some t)]> (mgr s1))
                      (set_free rest s1))),
              [ConnNew c; ConnSetProtocol c; ConnInit c cid sock])
    end.

(** Re-arming the deadline after a successful I/O event. *)
Definition refresh (s : TcpServer) (index : nat) (sl : Slot) (now : Z)
    : option TcpServer :=
  let deadline_seconds := now + connection_timeout (options s) in
  let? tl := tl_erase (second sl) (timeout_record_list s) in
  let t := next_id s in
  Some (set_next_id (S t)
          (set_timeouts (tl_insert (mkEntry t deadline_seconds index) tl)
             (set_mgr (<[index := mkSlot (first sl) (Some t)]> (mgr s)) s))).

(** [TcpServer::OnRecvEvent]; [ok] is the answer of [DoRecvEvent]. *)
Definition OnRecvEvent (s : TcpServer) (cid : Z) (ok : bool) (now : Z)
    : option (TcpServer * list Effect) :=
  let index := Check s cid in
  if index =? InvalidIndex then
    Some (s, [LogError "tcpserver: OnRecvEvent found invalid index"])
  else
    let i := Z.to_nat index in
    let? sl := mgr s !! i in
    let? c := first sl in
    if negb ok then
      let? r := DeleteConnection s i in
      Some (fst r, [ConnDoRecv c; LogError "tcpserver: Failed to post async recv";
                    ConnShutdown c true] ++ snd r)
    else
      let? s' := refresh s i sl now in
      Some (s', [ConnDoRecv c]).

(** [TcpServer::OnSendEvent]; [ok] is the answer of [DoSendEvent]. *)
Definition OnSendEvent (s : TcpServer) (cid : Z) (ok : bool) (now : Z)
    : option (TcpServer * list Effect) :=
  let index := Check s cid in
  if index =? InvalidIndex then
    Some (s, [LogError "tcpserver: OnRecvEvent found invalid index"])
  else
    let i := Z.to_nat index in
    let? sl := mgr s !! i in
    let? c := first sl in
    if negb ok then
      let? r := DeleteConnection s i in
      Some (fst r, [ConnDoSend c; LogError "tcpserver: Failed to post async send";
                    ConnShutdown c true] ++ snd r)
    else
      let? s' := refresh s i sl now in
      Some (s', [ConnDoSend c]).

(** The [while (it != _timeout_record_list.end())] loop of
    [OnCheckingEvent]; [it] is the iterator, [fuel] bounds the iterations. *)
Fixpoint sweep (fuel : nat) (current : Z) (it : option nat) (s : TcpServer)
    : option (TcpServer * list Effect) :=
  match fuel with
  | O => None
  | S f =>
      match it with
      | None => Some (s, [])
      | Some t =>
          let? e := tl_find t (timeout_record_list s) in
          if current <? deadline e then Some (s, [])
          else
            let index := eidx e in
            let nxt := tl_next t (timeout_record_list s) in
            let? sl := mgr s !! index in
            let? c := first sl in
            let? r := DeleteConnection s index in
            let? r' := sweep f current nxt (fst r) in
            Some (fst r', ConnShutdown c true :: snd r ++ snd r')
      end
  end.

(** [TcpServer::OnCheckingEvent]. *)
Definition OnCheckingEvent (s : TcpServer) (current : Z)
    : option (TcpServer * list Effect) :=
  if current - last_timeout_time s <? 1 then Some (s, [])
  else
    let s1 := set_last_timeout_time current s in
    sweep (S (length (timeout_record_list s1))) current
      (tl_begin (timeout_record_list s1)) s1.

(** The error-aggregation step of the loop of [AddListeningPort]: [ans] is
    the answer of [_listener->AddListeningPort] for one address. *)
Definition add_port_step (ret : ErrorChain) (ans : option string) : ErrorChain :=
  match ans with
  | None => ret
  | Some err =>
      match ret with
      | ChainNone => ChainError err []
      | ChainError m l => ChainError m (l ++ [err])
      end
  end.

(** [TcpServer::AddListeningPort]; [addr] is [None] for [nullptr];
    [resolved] is the outcome of [raptor_blocking_resolve_address]: an error,
    or the listener's answer for each resolved address in order.  The second
    component is the number of [_listener->AddListeningPort] calls. *)
Definition AddListeningPort (s : TcpServer) (addr : option string)
    (resolved : string + list (option string)) : ErrorChain * nat :=
  if shutdown s then (ChainError "tcp server uninitialized" [], 0%nat)
  else match addr with
  | None => (ChainError "invalid parameters" [], 0%nat)
  | Some _ =>
      match resolved with
      | inl e => (ChainError e [], 0%nat)
      | inr answers => (fold_left add_port_step answers ChainNone, length answers)
      end
  end.

(** [TcpServer::CloseConnection]: the result is [true] once validation
    passes. *)
Definition CloseConnection (s : TcpServer) (cid : Z)
    : option (bool * TcpServer * list Effect) :=
  let index := Check s cid in
  if index =? InvalidIndex then Some (false, s, [])
  else
    let i := Z.to_nat index in
    let? sl := mgr s !! i in
    match first sl with
    | Some c =>
        let? r := DeleteConnection s i in
        Some (true, fst r, ConnShutdown c false :: snd r)
    | None => Some (true, s, [])
    end.

(** [TcpServer::OnErrorEvent]. *)
Definition OnErrorEvent (s : TcpServer) (cid : Z)
    : option (TcpServer * list Effect) :=
  let index := Check s cid in
  if index =? InvalidIndex then
    Some (s, [LogError "tcpserver: OnErrorEvent found invalid index"])
  else
    let i := Z.to_nat index in
    let? sl := mgr s !! i in
    match first sl with
    | Some c =>
        let? r := DeleteConnection s i in
        Some (fst r, ConnShutdown c true :: snd r)
    | None => Some (s, [])
    end.

(** [TcpServer::SetUserData]. *)
Definition SetUserData (s : TcpServer) (cid ptr : Z) : option (bool * list DataCall) :=
  let index := Check s cid in
  if index =? InvalidIndex then Some (false, [])
  else
    let? sl := mgr s !! Z.to_nat index in
    match first sl with
    | Some c => Some (true, [ConnSetUserData c ptr])
    | None => Some (false, [])
    end.

(** [TcpServer::GetUserData]. *)
Definition GetUserData (s : TcpServer) (cid : Z) : option (bool * list DataCall) :=
  let index := Check s cid in
  if index =? InvalidIndex then Some (false, [])
  else
    let? sl := mgr s !! Z.to_nat index in
    match first sl with
    | Some c => Some (true, [ConnGetUserData c])
    | None => Some (false, [])
    end.

(** [TcpServer::SetExtendInfo]. *)
Definition SetExtendInfo (s : TcpServer) (cid data : Z) : option (bool * list DataCall) :=
  let index := Check s cid in
  if index =? InvalidIndex then Some (false, [])
  else
    let? sl := mgr s !! Z.to_nat index in
    match first sl with
    | Some c => Some (true, [ConnSetExtendInfo c data])
    | None => Some (false, [])
    end.

(** [TcpServer::GetExtendInfo]. *)
Definition GetExtendInfo (s : TcpServer) (cid : Z) : option (bool * list DataCall) :=
  let index := Check s cid in
  if index =? InvalidIndex then Some (false, [])
  else
    let? sl := mgr s !! Z.to_nat index in
    match first sl with
    | Some c => Some (true, [ConnGetExtendInfo c])
    | None => Some (false, [])
    end.

End Ops.
End Linux.

(** ** Windows implementation ([src/core/windows/tcp_server.cc]), the parts
    that differ from Linux *)

Module Windows.

(** Modelled from the spec: [Connection::AsyncRecv] ([windows/connection.cc]
    is not in the sources) submits the first asynchronous receive; like the
    other boolean operations of the spec's Connection contract
    ([onRecvEvent(n)/onSendEvent(n) -> bool], where the server refreshes the
    deadline on [true]), it answers [true] when the receive was posted. *)
Definition AsyncRecv (posted : bool) : bool := posted.

Section Ops.

Variable InvalidConnectionId : Z.

Let Check := CheckConnectionId InvalidConnectionId.

(** [TcpServer::GetConnection]: [_mgr[index].first], unchecked index. *)
Definition GetConnection (s : TcpServer) (index : nat) : option (option nat) :=
  let? sl := mgr s !! index in Some (first sl).

(** [TcpServer::DeleteConnection]: returns early on an empty slot. *)
Definition DeleteConnection (s : TcpServer) (index : nat)
    : option (TcpServer * list Effect) :=
  let? sl := mgr s !! index in
  match first sl with
  | None => Some (s, [])
  | Some c =>
      let? tl := tl_erase (second sl) (timeout_record_list s) in
      Some (set_free (free_index_list s ++ [index])
              (set_timeouts tl (set_mgr (<[index := empty_slot]> (mgr s)) s)),
            [ConnDelete c])
  end.

(** [TcpServer::RefreshTime]: returns early on an empty slot. *)
Definition RefreshTime (s : TcpServer) (index : nat) (now : Z)
    : option TcpServer :=
  let? sl := mgr s !! index in
  match first sl with
  | None => Some s
  | Some c =>
      let deadline_seconds := now + connection_timeout (options s) in
      let? tl := tl_erase (second sl) (timeout_record_list s) in
      let t := next_id s in
      Some (set_next_id (S t)
              (set_timeouts (tl_insert (mkEntry t deadline_seconds index) tl)
                 (set_mgr (<[index := mkSlot (Some c) (Some t)]> (mgr s)) s)))
  end.

(** [TcpServer::OnNewConnection]; [posted] is the answer of
    [conn->AsyncRecv()], [now] is [Now()]. *)
Definition OnNewConnection (s : TcpServer) (sock listen_port now : Z)
    (posted : bool) : option (TcpServer * list Effect) :=
  if (match free_index_list s with [] => true | _ => false end)
     && (Z.of_nat (length (mgr s)) >=? max_connections (options s))
  then Some (s, [LogError "The maximum number of connections has been reached";
                 SocketShutdown sock])
  else
    let s1 := match free_index_list s with [] => Linux.grow s | _ => s end in
    match free_index_list s1 with
    | [] => None
    | index :: rest =>
        let cid := BuildConnectionId (magic_number s1) (Z.land listen_port 65535)
                     (Z.of_nat index) in
        let deadline_second := now + connection_timeout (options s1) in
        let c := next_id s1 in
        let eff := [ConnNew c; ConnInit c cid sock; ConnSetProtocol c;
                    RsAdd sock cid; ConnAsyncRecv c] in
        if AsyncRecv posted then
          Some (set_next_id (S c) (set_free (rest ++ [index]) s1),
                eff ++ [ConnShutdown c true])
        else
          let t := S c in
          let? sl := mgr s1 !! index in
          Some (set_next_id (S t)
                  (set_timeouts (tl_insert (mkEntry t deadline_second index)
                                   (timeout_record_list s1))
                     (set_mgr (<[index := mkSlot (Some c) (Some t)]> (mgr s1))
                        (set_free rest s1))),
                eff)
    end.

(** [TcpServer::OnRecvEvent]; [ok] is the answer of [con->OnRecvEvent]. *)
Definition OnRecvEvent (s : TcpServer) (cid : Z) (ok : bool) (now : Z)
    : option (TcpServer * list Effect) :=
  let index := Check s cid in
  if index =? InvalidIndex then
    Some (s, [LogError "tcpserver: OnRecvEvent found invalid index"])
  else
    let i := Z.to_nat index in
    let? con := GetConnection s i in
    match con with
    | None => Some (s, [])
    | Some c =>
        if ok then
          let? s' := RefreshTime s i now in Some (s', [ConnDoRecv c])
        else
          let? r := DeleteConnection s i in
          Some (fst r, [ConnDoRecv c; ConnShutdown c true] ++ snd r
                       ++ [LogError "tcpserver: Failed to post async recv"])
    end.

(** [TcpServer::OnSendEvent]; [ok] is the answer of [con->OnSendEvent]. *)
Definition OnSendEvent (s : TcpServer) (cid : Z) (ok : bool) (now : Z)
    : option (TcpServer * list Effect) :=
  let index := Check s cid in
  if index =? InvalidIndex then
    Some (s, [LogError "tcpserver: OnRecvEvent found invalid index"])
  else
    let i := Z.to_nat index in
    let? con := GetConnection s i in
    match con with
    | None => Some (s, [])
    | Some c =>
        if ok then
          let? s' := RefreshTime s i now in Some (s', [ConnDoSend c])
        else
          let? r := DeleteConnection s i in
          Some (fst r, [ConnDoSend c; ConnShutdown c true] ++ snd r
                       ++ [LogError "tcpserver: Failed to post async send"])
    end.

(** [TcpServer::CloseConnection]. *)
Definition CloseConnection (s : TcpServer) (cid : Z)
    : option (bool * TcpServer * list Effect) :=
  let index := Check s cid in
  if index =? InvalidIndex then Some (false, s, [])
  else
    let i := Z.to_nat index in
    let? con := GetConnection s i in
    match con with
    | Some c =>
        let? r := DeleteConnection s i in
        Some (true, fst r, ConnShutdown c false :: snd r)
    | None => Some (true, s, [])
    end.

(** [TcpServer::OnErrorEvent]. *)
Definition OnErrorEvent (s : TcpServer) (cid : Z)
    : option (TcpServer * list Effect) :=
  let index := Check s cid in
  if index =? InvalidIndex then
    Some (s, [LogError "tcpserver: OnErrorEvent found invalid index"])
  else
    let i := Z.to_nat index in
    let? con := GetConnection s i in
    match con with
    | Some c =>
        let? r := DeleteConnection s i in
        Some (fst r, ConnShutdown c true :: snd r)
    | None => Some (s, [])
    end.

(** The loop of [OnCheckingEvent], which evicts inline: [Shutdown(true)],
    [first.reset()] (written [ConnDelete], as in [DeleteConnection]), erase
    of the stored iterator, [second = end()], index pushed on the free
    list. *)
Fixpoint sweep (fuel : nat) (current : Z) (it : option nat) (s : TcpServer)
    : option (TcpServer * list Effect) :=
  match fuel with
  | O => None
  | S f =>
      match it with
      | None => Some (s, [])
      | Some t =>
          let? e := tl_find t (timeout_record_list s) in
          if current <? deadline e then Some (s, [])
          else
            let index := eidx e in
            let nxt := tl_next t (timeout_record_list s) in
            let? sl := mgr s !! index in
            let? c := first sl in
            let? tl := tl_erase (second sl) (timeout_record_list s) in
            let s1 := set_free (free_index_list s ++ [index])
                        (set_timeouts tl (set_mgr (<[index := empty_slot]> (mgr s)) s)) in
            let? r' := sweep f current nxt s1 in
            Some (fst r', ConnShutdown c true :: ConnDelete c :: snd r')
      end
  end.

(** [TcpServer::OnCheckingEvent]: at most one sweep every 3 seconds. *)
Definition OnCheckingEvent (s : TcpServer) (current : Z)
    : option (TcpServer * list Effect) :=
  if current - last_timeout_time s <? 3 then Some (s, [])
  else
    let s1 := set_last_timeout_time current s in
    sweep (S (length (timeout_record_list s1))) current
      (tl_begin (timeout_record_list s1)) s1.

End Ops.
End Windows.

(** ** Dispatch pipeline ([_mpscq], [_count] and [MessageQueueThread]),
    shared by both platforms *)

Module Mq.

(** A [TcpMessageNode] as the dispatch thread reads it: [type], [cid] and the
    payload [slice] ([addr], stored by [OnConnectionArrived], is never
    read). *)
Record Node := mkNode {
  type : MessageType;
  cid : Z;
  slice : list Byte.byte
}.

(** [_shutdown], the queue (oldest node first) and [_count]. *)
Record State := mkState {
  shutdown : bool;
  mpscq : list Node;
  count : Z
}.

(** The application callbacks of [IServerReceiver]. *)
Inductive Callback :=
  | OnConnected (c : Z)
  | OnMessageReceived (c : Z) (data : list Byte.byte)
  | OnClosed (c : Z).

(** [_mpscq.push(&msg->node); _count.FetchAdd(1); _cv.Signal();] *)
Definition push (n : Node) (st : State) : State :=
  mkState (shutdown st) (mpscq st ++ [n]) (count st + 1).

(** [TcpServer::OnConnectionArrived]. *)
Definition OnConnectionArrived (c : Z) (st : State) : State :=
  push (mkNode kNewConnection c []) st.

(** [TcpServer::OnDataReceived]. *)
Definition OnDataReceived (c : Z) (s : list Byte.byte) (st : State) : State :=
  push (mkNode kRecvAMessage c s) st.

(** [TcpServer::OnConnectionClosed]. *)
Definition OnConnectionClosed (c : Z) (st : State) : State :=
  push (mkNode kCloseClient c []) st.

(** [TcpServer::Dispatch]. *)
Definition Dispatch (msg : Node) : Callback :=
  match type msg with
  | kNewConnection => OnConnected (cid msg)
  | kRecvAMessage => OnMessageReceived (cid msg) (slice msg)
  | kCloseClient => OnClosed (cid msg)
  end.

(** What one turn of the dispatch thread does. *)
Inductive Step := Exit | Wait | Popped (cb : option Callback).

(** One turn of [MessageQueueThread]: leave when [_shutdown] is set, block
    on the condition variable while [_count] is 0, otherwise pop one node
    ([nullptr] on an empty queue) and dispatch it. *)
Definition step (st : State) : Step * State :=
  if shutdown st then (Exit, st)
  else if count st =? 0 then (Wait, st)
  else match mpscq st with
       | [] => (Popped None, st)
       | msg :: q => (Popped (Some (Dispatch msg)), mkState (shutdown st) q (count st - 1))
       end.

(** At most [n] turns of the dispatch thread, until it leaves or blocks;
    the callbacks it makes, in order, and the final state. *)
Fixpoint thread_run (n : nat) (st : State) : list Callback * State :=
  match n with
  | O => ([], st)
  | S n' =>
      match step st with
      | (Popped None, st') => thread_run n' st'
      | (Popped (Some cb), st') =>
          let r := thread_run n' st' in (cb :: fst r, snd r)
      | (_, st') => ([], st')
      end
  end.

End Mq.

(** ** The outbound client ([src/unnamed/part_000], [core/linux/tcp_client.cc]) *)

Module Client.

(** [_shutdown], [_is_connected] and the socket [_fd] ([-1] when none). *)
Record TcpClient := mkClient {
  shutdown : bool;
  is_connected : bool;
  fd : Z
}.

(** [TcpClient::TcpClient]: [_shutdown(true)], [_fd(-1)]. *)
Definition new_client : TcpClient := mkClient true false (-1).

(** Effects of the client on its thread, its socket and its buffers. *)
Inductive CEffect :=
  | ThreadStart | ThreadJoin
  | SocketShutdown (sock : Z)
  | SndAddSlice (data : list Byte.byte)
  | SndClear | RcvClear.

(** Linux [errno] values. *)
Definition EINTR : Z := 4.
Definition EWOULDBLOCK : Z := 11.
Definition EAGAIN : Z := 11.
Definition EINPROGRESS : Z := 115.

(** The answer of one [connect] call: success, or [-1] with [errno]. *)
Inductive ConnectResult := ConnectOk | ConnectFail (errno : Z).

(** [do { err = connect(...); } while (err < 0 && errno == EINTR);] over the
    answers of the successive calls; [errno] is its value before the loop and
    is left unchanged by a successful call.  The result is [err] and the
    final [errno]; [None] when the answers run out. *)
Fixpoint connect_loop (answers : list ConnectResult) (errno : Z) : option (Z * Z) :=
  match answers with
  | [] => None
  | ConnectOk :: _ => Some (0, errno)
  | ConnectFail e :: rest =>
      if e =? EINTR then connect_loop rest e else Some (-1, e)
  end.

(** [TcpClient::AsyncConnect]; [prepare] is the outcome of
    [raptor_tcp_client_prepare_socket] (an error or the new socket).  The
    result carries the status, the value written to [*new_fd] and the
    effects. *)
Definition AsyncConnect (prepare : Status + Z) (answers : list ConnectResult)
    (errno : Z) : option (Status * Z * list CEffect) :=
  match prepare with
  | inl result => Some (result, -1, [])
  | inr sock_fd =>
      match connect_loop answers errno with
      | None => None
      | Some (_, errno') =>
          if negb (errno' =? EWOULDBLOCK) && negb (errno' =? EINPROGRESS)
          then Some (Error "connect", -1, [SocketShutdown sock_fd])
          else Some (ErrorNone, sock_fd, [])
      end
  end.

(** [TcpClient::Init]. *)
Definition Init (c : TcpClient) : Status * TcpClient * list CEffect :=
  if negb (shutdown c) then (Error "tcp client already running", c, [])
  else (ErrorNone, mkClient false false (fd c), [ThreadStart]).

(** [TcpClient::IsOnline]. *)
Definition IsOnline (c : TcpClient) : bool := negb (fd c =? -1).

(** [TcpClient::Connect]; [resolved] is the outcome of
    [raptor_blocking_resolve_address] (an error or the addresses), the other
    inputs are those of [AsyncConnect] on the first address.  [None] when
    [RAPTOR_ASSERT(addrs->naddrs > 0)] fails. *)
Definition Connect (c : TcpClient) (addr : string) (resolved : Status + list Z)
    (prepare : Status + Z) (answers : list ConnectResult) (errno : Z)
    : option (Status * TcpClient * list CEffect) :=
  if shutdown c then Some (Error "TcpClient is not initialized", c, [])
  else match addr with
  | EmptyString => Some (Error "Invalid parameter", c, [])
  | String _ _ =>
      match resolved with
      | inl e => Some (e, c, [])
      | inr [] => None
      | inr (_ :: _) =>
          match AsyncConnect prepare answers errno with
          | None => None
          | Some (e, new_fd, eff) =>
              Some (e, mkClient (shutdown c) (is_connected c) new_fd, eff)
          end
      end
  end.

Section Send.

(** [Protocol::BuildPackageHeader]. *)
Variable BuildPackageHeader : nat -> list Byte.byte.

(** [TcpClient::Send]: the header and the payload are added to the send
    buffer. *)
Definition Send (c : TcpClient) (buff : list Byte.byte) : bool * list CEffect :=
  if negb (IsOnline c) then (false, [])
  else (true, [SndAddSlice (BuildPackageHeader (length buff)); SndAddSlice buff]).

End Send.

(** [TcpClient::Shutdown]. *)
Definition Shutdown (c : TcpClient) : TcpClient * list CEffect :=
  if negb (shutdown c) then
    (mkClient true (is_connected c) (-1),
     [ThreadJoin; SocketShutdown (fd c); SndClear; RcvClear])
  else (c, []).

End Client.

(** ** Concrete scenarios *)

Definition T0 : Z := 1600000000.

(** The two sentinels the spec allows for [core::InvalidConnectionId]. *)
Definition InvalidAllOnes : Z := 18446744073709551615.
Definition InvalidZero : Z := 0.

Definition run (o : option (TcpServer * list Effect)) : TcpServer :=
  match o with Some (s, _) => s | None => new_server end.

(** A successful [Init] (every sub-component initialises). *)
Definition init_ok (s : TcpServer) (opts : RaptorOptions) (now : Z) : TcpServer :=
  snd (fst (Linux.Init s opts now true true true)).

(** [max_connections = 2]: two clients accepted. *)
Definition cap2_s0 : TcpServer := init_ok new_server (mkOptions 2 60) T0.
Definition cap2_s1 : TcpServer := run (Linux.OnNewConnection cap2_s0 10 80 T0).
Definition cap2_s2 : TcpServer := run (Linux.OnNewConnection cap2_s1 11 80 T0).

(** [max_connections = 1000]: a fresh table of 100 slots. *)
Definition big_s0 : TcpServer := init_ok new_server (mkOptions 1000 60) T0.

(** [max_connections = 100], one connection in slot 0. *)
Definition one_s0 : TcpServer := init_ok new_server (mkOptions 100 60) T0.
Definition one_s1 : TcpServer := run (Linux.OnNewConnection one_s0 10 80 T0).

(** The magic number [(T0 >> 16) & 0xffff]. *)
Definition magic_T0 : Z := 24414.

(** [one_s0] shut down and initialised again one second later, and 65536
    seconds later. *)
Definition restart_near : TcpServer :=
  init_ok (fst (Linux.Shutdown one_s0)) (mkOptions 100 60) (T0 + 1).
Definition restart_far : TcpServer :=
  init_ok (fst (Linux.Shutdown one_s0)) (mkOptions 100 60) (T0 + 65536).

(** [one_s1] with a second client accepted ten seconds later: deadlines
    [T0 + 60] (slot 0) and [T0 + 70] (slot 1). *)
Definition sweep_s : TcpServer := run (Linux.OnNewConnection one_s1 11 80 (T0 + 10)).

(** [max_connections = 150]: one hundred clients accepted, which fills the
    100 slots that [Init] reserves. *)
Definition full_s : TcpServer :=
  Nat.iter 100 (fun s => run (Linux.OnNewConnection s 10 80 T0))
    (init_ok new_server (mkOptions 150 60) T0).

(** ** Consistency of the slot table and the timeout index *)

(** The entry [e] of the timeout index belongs to a live slot whose stored
    iterator points back to it (spec invariants I1-I3). *)
Definition entry_live (m : list Slot) (e : Entry) : Prop :=
  exists c, m !! eidx e = Some (mkSlot (Some c) (Some (tid e))).

(** Iteration order of the multimap is ascending in the key. *)
Definition timeouts_sorted (l : list Entry) : Prop :=
  Sorted (fun a b => deadline a <= deadline b) l.

Definition WF (s : TcpServer) : Prop :=
  NoDup (map tid (timeout_record_list s)) /\
  NoDup (map eidx (timeout_record_list s)) /\
  Forall (entry_live (mgr s)) (timeout_record_list s) /\
  timeouts_sorted (timeout_record_list s).

(** The connection object held by slot [i] ([0] when there is none). *)
Definition conn_at (m : list Slot) (i : nat) : nat :=
  match m !! i with Some (mkSlot (Some c) _) => c | _ => 0%nat end.

(** Clearing the slots [idxs] in order. *)
Definition clear_slots (idxs : list nat) (m : list Slot) : list Slot :=
  fold_left (fun m i => <[i := empty_slot]> m) idxs m.

(** The entries whose deadline has passed at [current]. *)
Definition expired (current : Z) (l : list Entry) : list Entry :=
  List.filter (fun e => deadline e <=? current) l.

(** The entries still pending at [current]. *)
Definition pending (current : Z) (l : list Entry) : list Entry :=
  List.filter (fun e => current <? deadline e) l.

(** Effects of evicting the expired entries one after the other. *)
Definition eviction_effects (m : list Slot) (l : list Entry) : list Effect :=
  flat_map (fun e => [ConnShutdown (conn_at m (eidx e)) true;
                      ConnDelete (conn_at m (eidx e))]) l.

(** Every iterator stored in the index is older than the allocator. *)
Definition fresh_ids (s : TcpServer) : Prop :=
  Forall (fun e => (tid e < next_id s)%nat) (timeout_record_list s).

(** The free list holds distinct indices of empty slots. *)
Definition free_ok (s : TcpServer) : Prop :=
  NoDup (free_index_list s) /\
  Forall (fun i => mgr s !! i = Some empty_slot) (free_index_list s).

(** A slot is empty, or live with an iterator to an entry of the index that
    names it. *)
Definition slot_ok (l : list Entry) (i : nat) (sl : Slot) : Prop :=
  sl = empty_slot \/
  exists c e, sl = mkSlot (Some c) (Some (tid e)) /\ In e l /\ eidx e = i.

Definition slots_ok (s : TcpServer) : Prop :=
  forall i sl, mgr s !! i = Some sl -> slot_ok (timeout_record_list s) i sl.

(** The consistency of the slot table, the timeout index and the free list
    that the server's operations keep. *)
Definition INV (s : TcpServer) : Prop :=
  WF s /\ fresh_ids s /\ free_ok s /\ slots_ok s.

(** * Properties *)

(** ** Validation *)

(** Claim C3: [CheckConnectionId] answers [InvalidIndex] exactly when the cid
    is the invalid sentinel, carries another magic number, or embeds an index
    at or above [max_connections] (a [uint32_t]); otherwise it answers the
    embedded index. *)
Theorem CheckConnectionId_spec (inv : Z) (s : TcpServer) (cid : Z)
    (Hmax : max_connections (options s) <= InvalidIndex) :
  (CheckConnectionId inv s cid = InvalidIndex <->
     cid = inv \/ GetMagicNumber cid <> magic_number s \/
     max_connections (options s) <= GetUserId cid) /\
  (~ (cid = inv \/ GetMagicNumber cid <> magic_number s \/
      max_connections (options s) <= GetUserId cid) ->
     CheckConnectionId inv s cid = GetUserId cid).
Proof.
  unfold CheckConnectionId.
  destruct (Z.eqb_spec cid inv) as [Hinv | Hinv]; cbn [negb].
  - split; [tauto | intros H; exfalso; tauto].
  - destruct (Z.eqb_spec (GetMagicNumber cid) (magic_number s)) as [Hm | Hm];
      cbn [negb].
    + rewrite Z.geb_leb.
      destruct (Z.leb_spec (max_connections (options s)) (GetUserId cid)) as [Hu | Hu].
      * split; [tauto | intros H; exfalso; tauto].
      * split.
        -- split; [intros E; unfold InvalidIndex in *; lia | intros [H | [H | H]]; lia].
        -- reflexivity.
    + split; [tauto | intros H; exfalso; tauto].
Qed.

Lemma CheckConnectionId_spec_witness :
  max_connections (options big_s0) <= InvalidIndex /\
  ((CheckConnectionId InvalidAllOnes big_s0 (BuildConnectionId magic_T0 80 5)
      = InvalidIndex <->
    BuildConnectionId magic_T0 80 5 = InvalidAllOnes \/
    GetMagicNumber (BuildConnectionId magic_T0 80 5) <> magic_number big_s0 \/
    max_connections (options big_s0) <= GetUserId (BuildConnectionId magic_T0 80 5)) /\
   (~ (BuildConnectionId magic_T0 80 5 = InvalidAllOnes \/
       GetMagicNumber (BuildConnectionId magic_T0 80 5) <> magic_number big_s0 \/
       max_connections (options big_s0) <= GetUserId (BuildConnectionId magic_T0 80 5)) ->
    CheckConnectionId InvalidAllOnes big_s0 (BuildConnectionId magic_T0 80 5)
      = GetUserId (BuildConnectionId magic_T0 80 5))).
Proof.
  split.
  - apply Z.leb_le. vm_compute. reflexivity.
  - apply (CheckConnectionId_spec InvalidAllOnes big_s0 (BuildConnectionId magic_T0 80 5)).
    apply Z.leb_le. vm_compute. reflexivity.
Defined.

(** ** Accepting connections *)

(** Claim C1 (code defect): with [max_connections = 2], after two accepted
    clients the third [OnNewConnection] is not refused: [Init] reserved 100
    slots, so the free list is not empty and the cap guard does not fire; the
    third connection is installed in slot 2, and its cid is one the server's
    own validator rejects. *)
Theorem linux_accept_past_max_connections :
  mgr cap2_s2 !! 0%nat = Some (mkSlot (Some 0%nat) (Some 1%nat)) /\
  mgr cap2_s2 !! 1%nat = Some (mkSlot (Some 2%nat) (Some 3%nat)) /\
  mgr cap2_s2 !! 2%nat = Some empty_slot /\
  exists s3,
    Linux.OnNewConnection cap2_s2 12 80 T0 =
      Some (s3, [ConnNew 4; ConnSetProtocol 4;
                 ConnInit 4 (BuildConnectionId magic_T0 80 2) 12]) /\
    mgr s3 !! 2%nat = Some (mkSlot (Some 4%nat) (Some 5%nat)) /\
    CheckConnectionId InvalidAllOnes s3 (BuildConnectionId magic_T0 80 2) = InvalidIndex /\
    CheckConnectionId InvalidZero s3 (BuildConnectionId magic_T0 80 2) = InvalidIndex.
Proof.
  split; [vm_compute; reflexivity |].
  split; [vm_compute; reflexivity |].
  split; [vm_compute; reflexivity |].
  exists (run (Linux.OnNewConnection cap2_s2 12 80 T0)).
  repeat match goal with |- _ /\ _ => split end; vm_compute; reflexivity.
Qed.

(** Claim C2 (code defect): on Windows the test on [conn->AsyncRecv()] is
    inverted.  When the first receive is posted the connection is shut down,
    its index goes back to the free list and the slot stays empty with no
    timeout entry; when posting fails the connection is installed. *)
Theorem windows_first_recv_branch_inverted :
  (exists s',
     Windows.OnNewConnection one_s0 10 80 T0 true =
       Some (s', [ConnNew 0; ConnInit 0 (BuildConnectionId magic_T0 80 0) 10;
                  ConnSetProtocol 0; RsAdd 10 (BuildConnectionId magic_T0 80 0);
                  ConnAsyncRecv 0; ConnShutdown 0 true]) /\
     mgr s' !! 0%nat = Some empty_slot /\
     timeout_record_list s' = [] /\
     last (free_index_list s') = Some 0%nat) /\
  (exists s',
     Windows.OnNewConnection one_s0 10 80 T0 false =
       Some (s', [ConnNew 0; ConnInit 0 (BuildConnectionId magic_T0 80 0) 10;
                  ConnSetProtocol 0; RsAdd 10 (BuildConnectionId magic_T0 80 0);
                  ConnAsyncRecv 0]) /\
     mgr s' !! 0%nat = Some (mkSlot (Some 0%nat) (Some 1%nat)) /\
     timeout_record_list s' = [mkEntry 1 (T0 + 60) 0]).
Proof.
  split.
  - exists (run (Windows.OnNewConnection one_s0 10 80 T0 true)).
    repeat match goal with |- _ /\ _ => split end; vm_compute; reflexivity.
  - exists (run (Windows.OnNewConnection one_s0 10 80 T0 false)).
    repeat match goal with |- _ /\ _ => split end; vm_compute; reflexivity.
Qed.

(** ** Routing by handle *)

(** Claim C4 (code defect): [Send] indexes [_mgr] with any index below
    [max_connections]; with [max_connections = 1000] and the 100 slots
    reserved by [Init], a cid carrying the server's magic and index 500 passes
    validation and [_mgr[500]] is read out of range. *)
Theorem linux_send_past_table_end_faults :
  length (mgr big_s0) = 100%nat /\
  CheckConnectionId InvalidAllOnes big_s0 (BuildConnectionId magic_T0 80 500) = 500 /\
  CheckConnectionId InvalidZero big_s0 (BuildConnectionId magic_T0 80 500) = 500 /\
  (forall ok, Linux.Send InvalidAllOnes big_s0 (BuildConnectionId magic_T0 80 500) ok = None) /\
  (forall ok, Linux.Send InvalidZero big_s0 (BuildConnectionId magic_T0 80 500) ok = None).
Proof.
  repeat match goal with |- _ /\ _ => split end;
    try intros []; vm_compute; reflexivity.
Qed.

(** Claim C10 (code defect): on Linux, [OnRecvEvent] and [OnSendEvent] call
    through [_mgr[index].first] without testing it, so a cid that passes
    validation for an empty slot makes them fault; the Windows handlers test
    the connection and return with the state unchanged. *)
Theorem linux_io_event_on_empty_slot_faults :
  mgr one_s0 !! 0%nat = Some empty_slot /\
  CheckConnectionId InvalidAllOnes one_s0 (BuildConnectionId magic_T0 80 0) = 0 /\
  CheckConnectionId InvalidZero one_s0 (BuildConnectionId magic_T0 80 0) = 0 /\
  (forall ok, Linux.OnRecvEvent InvalidAllOnes one_s0 (BuildConnectionId magic_T0 80 0) ok T0 = None) /\
  (forall ok, Linux.OnSendEvent InvalidAllOnes one_s0 (BuildConnectionId magic_T0 80 0) ok T0 = None) /\
  (forall ok, Linux.OnRecvEvent InvalidZero one_s0 (BuildConnectionId magic_T0 80 0) ok T0 = None) /\
  (forall ok, Linux.OnSendEvent InvalidZero one_s0 (BuildConnectionId magic_T0 80 0) ok T0 = None) /\
  (forall ok, Windows.OnRecvEvent InvalidAllOnes one_s0 (BuildConnectionId magic_T0 80 0) ok T0
              = Some (one_s0, [])) /\
  (forall ok, Windows.OnSendEvent InvalidAllOnes one_s0 (BuildConnectionId magic_T0 80 0) ok T0
              = Some (one_s0, [])).
Proof.
  repeat match goal with |- _ /\ _ => split end;
    try intros []; vm_compute; reflexivity.
Qed.

(** ** Lifecycle *)

(** Claim C6, counterexample: after [Init] and [Shutdown] the server is not
    in the Initialised state, yet [Start] starts the listener, both I/O
    threads and the dispatch thread and reports success. *)
Lemma start_after_shutdown_not_rejected :
  shutdown (fst (Linux.Shutdown one_s0)) = true /\
  Linux.Start (fst (Linux.Shutdown one_s0)) true true true =
    Some (ErrorNone, [ListenerStart; RecvThreadStart; SendThreadStart; MqThreadStart]).
Proof. split; vm_compute; reflexivity. Qed.

(** Claim C6, as the code has it: [Init] on a running server answers "tcp
    server already running" and changes nothing; [Start] reads no lifecycle
    state (its outcome does not depend on [_shutdown]) and, once [Init] has
    created the components, starts the listener, then the receive and send
    threads, then the dispatch thread, stopping with an error at the first
    stage that fails. *)
Theorem init_rejects_running_start_unguarded :
  (forall s opts now a b c, shutdown s = false ->
     Linux.Init s opts now a b c = (Error "tcp server already running", s, [])) /\
  (forall s b l r d, Linux.Start (set_shutdown b s) l r d = Linux.Start s l r d) /\
  (forall s l r d, components s = true ->
     (l = false -> exists m, Linux.Start s l r d = Some (Error m, [ListenerStart])) /\
     (l = true -> r = false -> exists m,
        Linux.Start s l r d = Some (Error m, [ListenerStart; RecvThreadStart])) /\
     (l = true -> r = true -> d = false -> exists m,
        Linux.Start s l r d =
          Some (Error m, [ListenerStart; RecvThreadStart; SendThreadStart])) /\
     (l = true -> r = true -> d = true ->
        Linux.Start s l r d =
          Some (ErrorNone, [ListenerStart; RecvThreadStart; SendThreadStart;
                            MqThreadStart]))).
Proof.
  split; [| split].
  - intros s opts now a b c H. unfold Linux.Init. rewrite H. reflexivity.
  - intros s b l r d. reflexivity.
  - intros s l r d Hc. unfold Linux.Start. rewrite Hc. cbn [negb].
    split; [| split; [| split]]; intros; subst; cbn [negb]; eauto.
Qed.

Lemma init_rejects_running_start_unguarded_witness :
  Linux.Init one_s0 (mkOptions 5 5) T0 true true true =
    (Error "tcp server already running", one_s0, []) /\
  Linux.Start one_s0 true true true =
    Some (ErrorNone, [ListenerStart; RecvThreadStart; SendThreadStart; MqThreadStart]).
Proof.
  destruct init_rejects_running_start_unguarded as [Hinit [_ Hstart]].
  split.
  - apply Hinit. vm_compute. reflexivity.
  - destruct (Hstart one_s0 true true true) as [_ [_ [_ H]]];
      [vm_compute; reflexivity | apply H; reflexivity].
Defined.

(** Claim C8: a second [Shutdown] changes nothing and has no effect, and the
    destructor runs [Shutdown] exactly when the server is running. *)
Theorem shutdown_idempotent (s : TcpServer) :
  Linux.Shutdown (fst (Linux.Shutdown s)) = (fst (Linux.Shutdown s), []) /\
  Linux.destroy s = (if shutdown s then (s, []) else Linux.Shutdown s).
Proof.
  unfold Linux.destroy, Linux.Shutdown.
  destruct (shutdown s) eqn:E; cbn [negb fst]; rewrite ?E; cbn [negb shutdown];
    split; reflexivity.
Qed.

(** ** Codec round trip *)

Lemma GetMagicNumber_Build (m p i : Z) :
  GetMagicNumber (BuildConnectionId m p i) = Z.land m 65535.
Proof.
  unfold GetMagicNumber, BuildConnectionId.
  change 65535 with (Z.ones 16). change 4294967295 with (Z.ones 32).
  apply Z.bits_inj'. intros k Hk.
  rewrite !Z.land_spec, Z.shiftr_spec by lia.
  rewrite !Z.lor_spec, !Z.shiftl_spec by lia.
  rewrite !Z.land_spec.
  rewrite !Z.testbit_ones_nonneg by lia.
  replace (k + 48 - 48) with k by lia.
  destruct (Z.ltb_spec k 16);
    destruct (Z.ltb_spec (k + 48 - 32) 16); try lia;
    destruct (Z.ltb_spec (k + 48) 32); try lia;
    rewrite ?andb_false_r, ?andb_true_r, ?orb_false_r; reflexivity.
Qed.

Lemma GetUserId_Build (m p i : Z) :
  GetUserId (BuildConnectionId m p i) = Z.land i 4294967295.
Proof.
  unfold GetUserId, BuildConnectionId.
  change 65535 with (Z.ones 16). change 4294967295 with (Z.ones 32).
  apply Z.bits_inj'. intros k Hk.
  rewrite !Z.land_spec, !Z.lor_spec.
  rewrite !Z.testbit_ones_nonneg by lia.
  destruct (Z.ltb_spec k 32).
  - rewrite !Z.shiftl_spec_low by lia.
    rewrite ?Z.land_spec, ?Z.testbit_ones_nonneg by lia.
    destruct (Z.ltb_spec k 32); try lia.
    destruct (Z.testbit i k); reflexivity.
  - rewrite !andb_false_r. reflexivity.
Qed.

(** ** Magic number across a restart *)

Lemma init_ok_magic (s : TcpServer) (o : RaptorOptions) (n : Z) :
  shutdown s = true -> magic_number (init_ok s o n) = Z.land (Z.shiftr n 16) 65535.
Proof. intros H. unfold init_ok, Linux.Init. rewrite H. reflexivity. Qed.

Lemma init_ok_options (s : TcpServer) (o : RaptorOptions) (n : Z) :
  shutdown s = true -> options (init_ok s o n) = o.
Proof. intros H. unfold init_ok, Linux.Init. rewrite H. reflexivity. Qed.

(** Claim C9, counterexample: two [Init] calls one second apart, across a
    [Shutdown], produce the same magic number, and a cid built against the
    first server passes the second server's validator. *)
Lemma magic_collides_one_second_apart :
  magic_number one_s0 = magic_T0 /\
  magic_number restart_near = magic_T0 /\
  CheckConnectionId InvalidAllOnes restart_near (BuildConnectionId (magic_number one_s0) 80 0) = 0 /\
  CheckConnectionId InvalidZero restart_near (BuildConnectionId (magic_number one_s0) 80 0) = 0.
Proof.
  repeat match goal with |- _ /\ _ => split end; vm_compute; reflexivity.
Qed.

(** Claim C9, as the code has it: [Init] sets the magic number to
    [(n >> 16) & 0xffff] for its time [n], so two inits in the same
    65536-second window get the same magic; a cid built against the first
    server (not the sentinel, index below the second server's
    [max_connections]) is rejected by the second server's validator exactly
    when the two magic numbers differ, and is accepted otherwise. *)
Theorem restart_magic_from_clock (inv : Z) (s1 s2 : TcpServer)
    (o1 o2 : RaptorOptions) (n1 n2 p i : Z)
    (H1 : shutdown s1 = true) (H2 : shutdown s2 = true)
    (Hi : 0 <= i < max_connections o2) (Hmax : max_connections o2 <= InvalidIndex)
    (Hcid : BuildConnectionId (magic_number (init_ok s1 o1 n1)) p i <> inv) :
  magic_number (init_ok s1 o1 n1) = Z.land (Z.shiftr n1 16) 65535 /\
  magic_number (init_ok s2 o2 n2) = Z.land (Z.shiftr n2 16) 65535 /\
  (Z.shiftr n1 16 = Z.shiftr n2 16 ->
     magic_number (init_ok s1 o1 n1) = magic_number (init_ok s2 o2 n2)) /\
  (CheckConnectionId inv (init_ok s2 o2 n2)
     (BuildConnectionId (magic_number (init_ok s1 o1 n1)) p i) = InvalidIndex <->
   magic_number (init_ok s1 o1 n1) <> magic_number (init_ok s2 o2 n2)) /\
  (magic_number (init_ok s1 o1 n1) = magic_number (init_ok s2 o2 n2) ->
     CheckConnectionId inv (init_ok s2 o2 n2)
       (BuildConnectionId (magic_number (init_ok s1 o1 n1)) p i) = i).
Proof.
  assert (Hm1 := init_ok_magic s1 o1 n1 H1).
  assert (Hm2 := init_ok_magic s2 o2 n2 H2).
  assert (Ho2 := init_ok_options s2 o2 n2 H2).
  set (m1 := magic_number (init_ok s1 o1 n1)) in *.
  set (m2 := magic_number (init_ok s2 o2 n2)) in *.
  assert (Hmag : GetMagicNumber (BuildConnectionId m1 p i) = m1).
  { rewrite GetMagicNumber_Build, Hm1, <- Z.land_assoc. reflexivity. }
  assert (Huid : GetUserId (BuildConnectionId m1 p i) = i).
  { rewrite GetUserId_Build.
    change 4294967295 with (Z.ones 32). rewrite Z.land_ones by lia.
    apply Z.mod_small. unfold InvalidIndex in Hmax. lia. }
  unfold CheckConnectionId.
  apply Z.eqb_neq in Hcid. rewrite Hcid, Hmag, Huid.
  fold m2. rewrite Ho2.
  assert (Hge : (i >=? max_connections o2) = false).
  { rewrite Z.geb_leb. apply Z.leb_gt. lia. }
  split; [exact Hm1 |]. split; [exact Hm2 |]. split.
  - intros E. rewrite Hm1, Hm2, E. reflexivity.
  - destruct (Z.eqb_spec m1 m2) as [E | E]; cbn [negb]; rewrite ?Hge.
    + split.
      * split; [intros Hx; unfold InvalidIndex in *; lia | intros F; contradiction].
      * intros _; reflexivity.
    + split.
      * split; [intros _; exact E | intros _; reflexivity].
      * intros F; contradiction.
Qed.

Lemma restart_magic_from_clock_witness :
  CheckConnectionId InvalidAllOnes restart_far
    (BuildConnectionId (magic_number one_s0) 80 0) = InvalidIndex <->
  magic_number one_s0 <> magic_number restart_far.
Proof.
  destruct (restart_magic_from_clock InvalidAllOnes new_server
              (fst (Linux.Shutdown one_s0)) (mkOptions 100 60) (mkOptions 100 60)
              T0 (T0 + 65536) 80 0)
    as (_ & _ & _ & H4 & _).
  - reflexivity.
  - vm_compute. reflexivity.
  - split; [apply Z.leb_le | apply Z.ltb_lt]; vm_compute; reflexivity.
  - apply Z.leb_le. vm_compute. reflexivity.
  - intros E. vm_compute in E. discriminate E.
  - exact H4.
Defined.

(** ** The timeout sweep *)

Lemma filter_keep_other_tids (t : nat) (r : list Entry) :
  ~ In t (map tid r) ->
  List.filter (fun x => negb (Nat.eqb (tid x) t)) r = r.
Proof.
  induction r as [| x r IH]; intros Hn; [reflexivity |].
  cbn [List.filter]. cbn [map In] in Hn.
  destruct (Nat.eqb_spec (tid x) t) as [E | E]; [exfalso; tauto |].
  cbn [negb]. f_equal. apply IH. tauto.
Qed.

Lemma clear_slots_lookup_notin (idxs : list nat) (m : list Slot) (i : nat) :
  ~ In i idxs -> clear_slots idxs m !! i = m !! i.
Proof.
  revert m. induction idxs as [| j idxs IH]; intros m Hn; [reflexivity |].
  cbn [clear_slots fold_left]. cbn [In] in Hn.
  change (clear_slots idxs (<[j := empty_slot]> m) !! i = m !! i).
  rewrite IH by tauto. apply list_lookup_insert_ne. intros E; subst; tauto.
Qed.

Lemma clear_slots_length (idxs : list nat) (m : list Slot) :
  length (clear_slots idxs m) = length m.
Proof.
  revert m. induction idxs as [| j idxs IH]; intros m; [reflexivity |].
  change (length (clear_slots idxs (<[j := empty_slot]> m)) = length m).
  rewrite IH. apply length_insert.
Qed.

Lemma clear_slots_lookup_in (idxs : list nat) (m : list Slot) (i : nat) :
  In i idxs -> (i < length m)%nat -> clear_slots idxs m !! i = Some empty_slot.
Proof.
  revert m. induction idxs as [| j idxs IH]; intros m Hin Hlt; [destruct Hin |].
  change (clear_slots idxs (<[j := empty_slot]> m) !! i = Some empty_slot).
  destruct (in_dec Nat.eq_dec i idxs) as [Hi | Hi].
  - apply IH; [exact Hi | rewrite length_insert; exact Hlt].
  - rewrite clear_slots_lookup_notin by exact Hi.
    destruct Hin as [E | E]; [subst | contradiction].
    apply list_lookup_insert_eq. exact Hlt.
Qed.

Lemma StronglySorted_filter {A : Type} (R : A -> A -> Prop) (f : A -> bool) (l : list A) :
  StronglySorted R l -> StronglySorted R (List.filter f l).
Proof.
  induction l as [| a l IH]; intros H; [constructor |].
  inversion H as [| ? ? Hl Ha]; subst. cbn [List.filter].
  destruct (f a); [constructor |]; auto.
  apply List.Forall_forall. intros x Hx. apply List.filter_In in Hx.
  rewrite List.Forall_forall in Ha. apply Ha. tauto.
Qed.

Lemma timeouts_sorted_filter (f : Entry -> bool) (l : list Entry) :
  timeouts_sorted l -> timeouts_sorted (List.filter f l).
Proof.
  unfold timeouts_sorted. intros H.
  apply StronglySorted_Sorted, StronglySorted_filter.
  apply Sorted_StronglySorted; [intros x y z; lia | exact H].
Qed.

(** Once the head of the sorted index is pending, so is every entry. *)
Lemma sorted_head_pending (current : Z) (e : Entry) (r : list Entry) :
  timeouts_sorted (e :: r) -> current < deadline e ->
  expired current (e :: r) = [] /\ pending current (e :: r) = e :: r.
Proof.
  unfold timeouts_sorted. intros Hs Hc.
  apply Sorted_StronglySorted in Hs; [| intros x y z; lia].
  inversion Hs as [| ? ? _ Hall]; subst.
  rewrite List.Forall_forall in Hall.
  assert (Hr : forall x, In x r -> current < deadline x).
  { intros x Hx. specialize (Hall x Hx). lia. }
  unfold expired, pending. cbn [List.filter].
  replace (deadline e <=? current) with false by (symmetry; apply Z.leb_gt; lia).
  replace (current <? deadline e) with true by (symmetry; apply Z.ltb_lt; lia).
  split.
  - clear Hs Hall. induction r as [| x r IH]; [reflexivity |].
    cbn [List.filter].
    replace (deadline x <=? current) with false
      by (symmetry; apply Z.leb_gt; apply Hr; left; reflexivity).
    apply IH. intros y Hy. apply Hr. right. exact Hy.
  - f_equal. clear Hs Hall. induction r as [| x r IH]; [reflexivity |].
    cbn [List.filter].
    replace (current <? deadline x) with true
      by (symmetry; apply Z.ltb_lt; apply Hr; left; reflexivity).
    f_equal. apply IH. intros y Hy. apply Hr. right. exact Hy.
Qed.

Lemma eviction_effects_insert_other (m : list Slot) (i : nat) (l : list Entry) :
  ~ In i (map eidx l) ->
  eviction_effects (<[i := empty_slot]> m) l = eviction_effects m l.
Proof.
  induction l as [| x l IH]; intros Hn; [reflexivity |].
  cbn [map In] in Hn. cbn [eviction_effects flat_map].
  unfold eviction_effects in IH. rewrite IH by tauto.
  unfold conn_at. rewrite list_lookup_insert_ne by (intros E; apply Hn; left; auto).
  reflexivity.
Qed.

Lemma in_map_expired (current : Z) (i : nat) (l : list Entry) :
  In i (map eidx (expired current l)) -> In i (map eidx l).
Proof.
  intros H. apply in_map_iff in H as [x [E Hx]].
  apply in_map_iff. exists x. split; [exact E |].
  apply List.filter_In in Hx. tauto.
Qed.

Lemma NoDup_map_same (f : Entry -> nat) (l : list Entry) (x y : Entry) :
  NoDup (map f l) -> In x l -> In y l -> f x = f y -> x = y.
Proof.
  induction l as [| a l IH]; intros Hn Hx Hy E; [destruct Hx |].
  inversion Hn as [| ? ? Hna Hnl]; subst.
  destruct Hx as [Hx | Hx], Hy as [Hy | Hy]; subst; auto.
  - exfalso. apply Hna. apply list_elem_of_In. rewrite E. apply in_map. exact Hy.
  - exfalso. apply Hna. apply list_elem_of_In. rewrite <- E. apply in_map. exact Hx.
Qed.

(** One iteration of the sweep loop on an expired head entry. *)
Lemma sweep_step_expired (current : Z) (f : nat) (s : TcpServer) (e : Entry)
    (r : list Entry) (c : nat) :
  timeout_record_list s = e :: r -> ~ In (tid e) (map tid r) ->
  mgr s !! eidx e = Some (mkSlot (Some c) (Some (tid e))) ->
  deadline e <= current ->
  Linux.sweep (S f) current (Some (tid e)) s =
    (let? r' := Linux.sweep f current (tl_begin r)
                  (set_free (free_index_list s ++ [eidx e])
                     (set_timeouts r (set_mgr (<[eidx e := empty_slot]> (mgr s)) s))) in
     Some (fst r', ConnShutdown c true :: [ConnDelete c] ++ snd r')).
Proof.
  intros Htl Hn Hsl Hd.
  cbn [Linux.sweep]. rewrite Htl. unfold tl_find. cbn [List.find].
  rewrite Nat.eqb_refl. cbv beta iota.
  replace (current <? deadline e) with false by (symmetry; apply Z.ltb_ge; lia).
  rewrite Hsl. cbv beta iota. cbn [first second].
  unfold Linux.DeleteConnection. rewrite Hsl. cbv beta iota. cbn [first second].
  unfold tl_erase, tl_mem. rewrite Htl. cbn [existsb List.filter].
  rewrite Nat.eqb_refl. cbn [orb negb].
  rewrite filter_keep_other_tids by exact Hn.
  cbn [tl_next]. rewrite Nat.eqb_refl. cbv beta iota. cbn [fst snd].
  reflexivity.
Qed.

(** The sweep loop, started at [begin()] on a consistent state, evicts the
    expired prefix of the index in order and keeps the rest. *)
Lemma sweep_correct (current : Z) (f : nat) :
  forall (s : TcpServer) (it : option nat),
  it = tl_begin (timeout_record_list s) -> WF s ->
  (length (timeout_record_list s) < f)%nat ->
  Linux.sweep f current it s =
    Some (set_free (free_index_list s ++
                    map eidx (expired current (timeout_record_list s)))
            (set_timeouts (pending current (timeout_record_list s))
               (set_mgr (clear_slots (map eidx (expired current (timeout_record_list s)))
                           (mgr s)) s)),
          eviction_effects (mgr s) (expired current (timeout_record_list s))).
Proof.
  induction f as [| f IH]; intros s it Hit Hwf Hlen; [lia |].
  destruct Hwf as (Htid & Hidx & Hlive & Hsort).
  destruct (timeout_record_list s) as [| e r] eqn:Htl; subst it.
  - cbn. rewrite app_nil_r. destruct s; cbn in Htl; subst; reflexivity.
  - cbn [tl_begin].
    destruct (Z.ltb_spec current (deadline e)) as [Hc | Hc].
    + destruct (sorted_head_pending current e r Hsort Hc) as [He Hp].
      rewrite He, Hp. cbn [Linux.sweep]. rewrite Htl.
      unfold tl_find. cbn [List.find]. rewrite Nat.eqb_refl. cbv beta iota.
      replace (current <? deadline e) with true by (symmetry; apply Z.ltb_lt; lia).
      cbn. rewrite app_nil_r. destruct s; cbn in Htl |- *; subst; reflexivity.
    + inversion Hlive as [| ? ? [c Hsl] Hlive_r]; subst.
      inversion Htid as [| ? ? Hnt Htid_r]; subst.
      inversion Hidx as [| ? ? Hni Hidx_r]; subst.
      assert (Hnt' : ~ In (tid e) (map tid r)) by (rewrite <- list_elem_of_In; exact Hnt).
      assert (Hni' : ~ In (eidx e) (map eidx r)) by (rewrite <- list_elem_of_In; exact Hni).
      rewrite (sweep_step_expired current f s e r c Htl Hnt' Hsl ltac:(lia)).
      rewrite IH.
      * assert (Hex : expired current (e :: r) = e :: expired current r).
        { unfold expired. cbn [List.filter].
          replace (deadline e <=? current) with true by (symmetry; apply Z.leb_le; lia).
          reflexivity. }
        assert (Hpe : pending current (e :: r) = pending current r).
        { unfold pending. cbn [List.filter].
          replace (current <? deadline e) with false by (symmetry; apply Z.ltb_ge; lia).
          reflexivity. }
        assert (Hc' : conn_at (mgr s) (eidx e) = c) by (unfold conn_at; rewrite Hsl; reflexivity).
        assert (Hev := eviction_effects_insert_other (mgr s) (eidx e) (expired current r)).
        destruct s as [sd cp op m tl fl mg lt q cn nid].
        cbn [timeout_record_list mgr free_index_list set_free set_timeouts set_mgr
             shutdown components options magic_number last_timeout_time mpscq
             count next_id] in Htl, Hsl, Hc', Hev |- *.
        subst tl. rewrite Hex, Hpe.
        change (eviction_effects m (e :: expired current r)) with
          ([ConnShutdown (conn_at m (eidx e)) true; ConnDelete (conn_at m (eidx e))]
           ++ eviction_effects m (expired current r)).
        change (clear_slots (map eidx (e :: expired current r)) m) with
          (clear_slots (map eidx (expired current r)) (<[eidx e := empty_slot]> m)).
        rewrite Hc', Hev.
        2: { intros Hin. apply Hni'. eapply in_map_expired. exact Hin. }
        cbn [map]. rewrite <- app_assoc. reflexivity.
      * reflexivity.
      * unfold WF, set_free, set_timeouts, set_mgr.
        cbn [timeout_record_list mgr].
        split; [exact Htid_r |]. split; [exact Hidx_r |].
        split; [| exact (proj1 (Sorted_inv Hsort))].
        apply List.Forall_forall. intros x Hx.
        rewrite List.Forall_forall in Hlive_r. destruct (Hlive_r x Hx) as [cx Hx'].
        exists cx. rewrite list_lookup_insert_ne; [exact Hx' |].
        intros E. apply Hni'. rewrite E. apply in_map. exact Hx.
      * unfold set_free, set_timeouts, set_mgr.
        cbn [timeout_record_list length] in *. lia.
Qed.

(** Claim C7: past the rate limit, on a consistent state, [OnCheckingEvent]
    evicts exactly the slots whose deadline is [<= current], in ascending
    deadline order (the order of the effects and of the indices appended to
    the free list); every slot with a later deadline keeps its connection
    and its timeout entry. *)
Theorem OnCheckingEvent_evicts_expired (s : TcpServer) (current : Z)
    (Hwf : WF s) (Hrate : 1 <= current - last_timeout_time s) :
  exists s' eff,
    Linux.OnCheckingEvent s current = Some (s', eff) /\
    last_timeout_time s' = current /\
    eff = eviction_effects (mgr s) (expired current (timeout_record_list s)) /\
    free_index_list s' =
      free_index_list s ++ map eidx (expired current (timeout_record_list s)) /\
    timeout_record_list s' = pending current (timeout_record_list s) /\
    timeouts_sorted (expired current (timeout_record_list s)) /\
    (forall e, In e (timeout_record_list s) -> deadline e <= current ->
       mgr s' !! eidx e = Some empty_slot /\ ~ In e (timeout_record_list s')) /\
    (forall e, In e (timeout_record_list s) -> current < deadline e ->
       mgr s' !! eidx e = mgr s !! eidx e /\ In e (timeout_record_list s')) /\
    (forall i, ~ In i (map eidx (expired current (timeout_record_list s))) ->
       mgr s' !! i = mgr s !! i).
Proof.
  unfold Linux.OnCheckingEvent.
  replace (current - last_timeout_time s <? 1) with false
    by (symmetry; apply Z.ltb_ge; lia).
  assert (Hwf1 : WF (set_last_timeout_time current s)) by exact Hwf.
  rewrite (sweep_correct current _ (set_last_timeout_time current s) _ eq_refl Hwf1
             (Nat.lt_succ_diag_r _)).
  unfold set_free, set_timeouts, set_mgr, set_last_timeout_time.
  cbn [mgr timeout_record_list free_index_list last_timeout_time].
  destruct Hwf as (Htid & Hidx & Hlive & Hsort).
  eexists _, _. split; [reflexivity |].
  split; [reflexivity |]. split; [reflexivity |].
  split; [reflexivity |]. split; [reflexivity |].
  split; [apply timeouts_sorted_filter; exact Hsort |].
  split; [| split].
  - intros e Hin Hd. split.
    + apply clear_slots_lookup_in.
      * apply in_map. apply List.filter_In. split; [exact Hin | apply Z.leb_le; exact Hd].
      * rewrite List.Forall_forall in Hlive. destruct (Hlive e Hin) as [c Hc].
        eapply lookup_lt_Some. exact Hc.
    + intros Hp. unfold pending in Hp. apply List.filter_In in Hp as [_ Hlt].
      apply Z.ltb_lt in Hlt. lia.
  - intros e Hin Hd. split.
    + apply clear_slots_lookup_notin. intros Hm.
      apply in_map_iff in Hm as [e' [E He']].
      apply List.filter_In in He' as [He' Hd'].
      assert (e' = e) by (apply (NoDup_map_same eidx (timeout_record_list s));
                          auto; apply NoDup_ListNoDup; exact Hidx).
      subst e'. apply Z.leb_le in Hd'. lia.
    + unfold pending. apply List.filter_In. split; [exact Hin | apply Z.ltb_lt; exact Hd].
  - intros i Hi. apply clear_slots_lookup_notin. exact Hi.
Qed.

Lemma OnCheckingEvent_evicts_expired_witness :
  WF sweep_s /\
  exists s' eff,
    Linux.OnCheckingEvent sweep_s (T0 + 65) = Some (s', eff) /\
    timeout_record_list s' = pending (T0 + 65) (timeout_record_list sweep_s) /\
    free_index_list s' =
      free_index_list sweep_s ++ map eidx (expired (T0 + 65) (timeout_record_list sweep_s)).
Proof.
  assert (Hwf : WF sweep_s).
  { assert (Htl : timeout_record_list sweep_s =
                  [mkEntry 1 (T0 + 60) 0; mkEntry 3 (T0 + 70) 1])
      by (vm_compute; reflexivity).
    assert (Hm0 : mgr sweep_s !! 0%nat = Some (mkSlot (Some 0%nat) (Some 1%nat)))
      by (vm_compute; reflexivity).
    assert (Hm1 : mgr sweep_s !! 1%nat = Some (mkSlot (Some 2%nat) (Some 3%nat)))
      by (vm_compute; reflexivity).
    unfold WF. rewrite Htl. cbn [map tid eidx].
    split; [apply (bool_decide_unpack _); vm_compute; exact I |].
    split; [apply (bool_decide_unpack _); vm_compute; exact I |].
    split.
    - constructor; [exists 0%nat; exact Hm0 |].
      constructor; [exists 2%nat; exact Hm1 | constructor].
    - unfold timeouts_sorted. repeat constructor. cbn [deadline]. lia. }
  split; [exact Hwf |].
  destruct (OnCheckingEvent_evicts_expired sweep_s (T0 + 65) Hwf)
    as (s' & eff & H1 & _ & _ & H4 & H5 & _).
  - apply Z.leb_le. vm_compute. reflexivity.
  - exists s', eff. split; [exact H1 |]. split; [exact H5 | exact H4].
Defined.

(** ** The consistency invariant *)

Lemma tl_insert_perm (e : Entry) (l : list Entry) :
  Permutation (tl_insert e l) (e :: l).
Proof.
  induction l as [| y l IH]; cbn [tl_insert]; [reflexivity |].
  destruct (deadline e <? deadline y); [reflexivity |].
  eapply perm_trans; [apply perm_skip, IH | apply perm_swap].
Qed.

Lemma tl_insert_In (e x : Entry) (l : list Entry) :
  In x (tl_insert e l) <-> e = x \/ In x l.
Proof.
  split; intros H.
  - apply (Permutation_in _ (tl_insert_perm e l)) in H. exact H.
  - apply (Permutation_in _ (Permutation_sym (tl_insert_perm e l))). exact H.
Qed.

Lemma NoDup_map_tl_insert (f : Entry -> nat) (e : Entry) (l : list Entry) :
  ~ In (f e) (map f l) -> NoDup (map f l) -> NoDup (map f (tl_insert e l)).
Proof.
  intros Hn Hl. apply NoDup_ListNoDup.
  apply (Permutation_NoDup (Permutation_sym (Permutation_map f (tl_insert_perm e l)))).
  cbn [map]. constructor; [exact Hn | apply NoDup_ListNoDup; exact Hl].
Qed.

Lemma tl_insert_sorted (e : Entry) (l : list Entry) :
  timeouts_sorted l -> timeouts_sorted (tl_insert e l).
Proof.
  unfold timeouts_sorted. intros H.
  induction H as [| y l Hl IH Hhd]; cbn [tl_insert].
  - repeat constructor.
  - destruct (Z.ltb_spec (deadline e) (deadline y)).
    + constructor; [constructor; assumption | constructor; lia].
    + constructor; [exact IH |].
      destruct l as [| z l]; cbn [tl_insert].
      * constructor. lia.
      * destruct (deadline e <? deadline z); constructor; [lia |].
        inversion Hhd; assumption.
Qed.

Lemma NoDup_map_filter (f : Entry -> nat) (p : Entry -> bool) (l : list Entry) :
  NoDup (map f l) -> NoDup (map f (List.filter p l)).
Proof.
  induction l as [| x l IH]; intros H; [constructor |].
  cbn [map] in H. apply NoDup_cons in H as [Hx Hl].
  cbn [List.filter]. destruct (p x); [| auto].
  cbn [map]. apply NoDup_cons. split; [| auto].
  intros Hin. apply Hx. apply list_elem_of_In in Hin. apply list_elem_of_In.
  apply in_map_iff in Hin as [y [E Hy]]. apply List.filter_In in Hy.
  apply in_map_iff. exists y. tauto.
Qed.

Lemma Forall_filter_sub {A : Type} (P : A -> Prop) (p : A -> bool) (l : list A) :
  Forall P l -> Forall P (List.filter p l).
Proof.
  rewrite !List.Forall_forall. intros H x Hx. apply List.filter_In in Hx. apply H. tauto.
Qed.

Lemma erase_In (t : nat) (x : Entry) (l : list Entry) :
  In x (List.filter (fun y => negb (Nat.eqb (tid y) t)) l) <-> In x l /\ tid x <> t.
Proof.
  rewrite List.filter_In. destruct (Nat.eqb_spec (tid x) t); cbn [negb];
    split; intros [H1 H2]; split; auto; try discriminate; contradiction.
Qed.

Lemma NoDup_In_not (l : list nat) (x : nat) :
  NoDup l -> In x l -> forall r, l = x :: r -> ~ In x r.
Proof.
  intros H Hx r E. subst l. apply NoDup_cons in H as [Hn _].
  intros Hr. apply Hn. apply list_elem_of_In. exact Hr.
Qed.

(** Under [INV], the entry an index's live slot points to. *)
Lemma INV_live_entry (s : TcpServer) (i c t : nat) :
  INV s -> mgr s !! i = Some (mkSlot (Some c) (Some t)) ->
  exists e, In e (timeout_record_list s) /\ tid e = t /\ eidx e = i.
Proof.
  intros (_ & _ & _ & Hs) Hi. destruct (Hs i _ Hi) as [E | (c' & e & E & He & Hei)];
    [discriminate E |].
  injection E as -> ->. exists e. auto.
Qed.

(** Entries of a consistent index point to live slots. *)
Lemma WF_entry_slot (s : TcpServer) (e : Entry) :
  WF s -> In e (timeout_record_list s) ->
  exists c, mgr s !! eidx e = Some (mkSlot (Some c) (Some (tid e))).
Proof.
  intros (_ & _ & Hl & _) He. rewrite List.Forall_forall in Hl. exact (Hl e He).
Qed.

(** A free index is not the index of any entry. *)
Lemma free_not_entry (s : TcpServer) (i : nat) (e : Entry) :
  WF s -> mgr s !! i = Some empty_slot -> In e (timeout_record_list s) -> eidx e <> i.
Proof.
  intros Hwf Hi He E. destruct (WF_entry_slot s e Hwf He) as [c Hc].
  rewrite E, Hi in Hc. discriminate Hc.
Qed.

(** An entry whose slot is [i] carries the iterator stored in slot [i]. *)
Lemma entry_at_slot (s : TcpServer) (i c t : nat) (e : Entry) :
  WF s -> mgr s !! i = Some (mkSlot (Some c) (Some t)) ->
  In e (timeout_record_list s) -> eidx e = i -> tid e = t.
Proof.
  intros Hwf Hi He E. destruct (WF_entry_slot s e Hwf He) as [c' Hc].
  rewrite E, Hi in Hc. congruence.
Qed.

Lemma free_not_live (s : TcpServer) (i : nat) (sl : Slot) :
  free_ok s -> mgr s !! i = Some sl -> sl <> empty_slot -> ~ In i (free_index_list s).
Proof.
  intros (_ & Hfe) Hi Hne Hin. rewrite List.Forall_forall in Hfe.
  rewrite (Hfe i Hin) in Hi. injection Hi as <-. apply Hne. reflexivity.
Qed.

(** [DeleteConnection] on a live slot of a consistent state: what it does. *)
Lemma delete_live_eq (s : TcpServer) (i c t : nat) :
  INV s -> mgr s !! i = Some (mkSlot (Some c) (Some t)) ->
  Linux.DeleteConnection s i =
    Some (set_free (free_index_list s ++ [i])
            (set_timeouts (List.filter (fun x => negb (Nat.eqb (tid x) t))
                             (timeout_record_list s))
               (set_mgr (<[i := empty_slot]> (mgr s)) s)),
          [ConnDelete c]).
Proof.
  intros HI Hi.
  destruct (INV_live_entry s i c t HI Hi) as (e & He & Ht & Hei).
  assert (Hm : tl_mem t (timeout_record_list s) = true).
  { unfold tl_mem. apply existsb_exists. exists e.
    split; [exact He | apply Nat.eqb_eq; exact Ht]. }
  unfold Linux.DeleteConnection. rewrite Hi. cbn [first second].
  unfold tl_erase. rewrite Hm. reflexivity.
Qed.

(** ... and it keeps the invariant. *)
Lemma delete_live_INV (s : TcpServer) (i c t : nat) :
  INV s -> mgr s !! i = Some (mkSlot (Some c) (Some t)) ->
  INV (set_free (free_index_list s ++ [i])
         (set_timeouts (List.filter (fun x => negb (Nat.eqb (tid x) t))
                          (timeout_record_list s))
            (set_mgr (<[i := empty_slot]> (mgr s)) s))).
Proof.
  intros HI Hi. pose proof HI as (Hwf & Hfr & Hfree & Hs).
  pose proof Hwf as (Htid & Hidx & Hlive & Hsort).
  pose proof Hfree as (Hfn & Hfe).
  destruct (INV_live_entry s i c t HI Hi) as (e & He & Ht & Hei).
  assert (Hlt : (i < length (mgr s))%nat) by (eapply lookup_lt_Some; exact Hi).
  assert (Hnf : ~ In i (free_index_list s))
    by (apply (free_not_live s i _ Hfree Hi); discriminate).
  unfold INV, WF, fresh_ids, free_ok, slots_ok, set_free, set_timeouts, set_mgr.
  cbn [timeout_record_list mgr free_index_list next_id].
  split; [split; [| split; [| split]] | split; [| split; [split |]]].
  - apply NoDup_map_filter. exact Htid.
  - apply NoDup_map_filter. exact Hidx.
  - apply List.Forall_forall. intros x Hx. apply erase_In in Hx as [Hx Hxt].
    destruct (WF_entry_slot s x Hwf Hx) as [cx Hcx]. exists cx.
    rewrite list_lookup_insert_ne; [exact Hcx |].
    intros E. apply Hxt. apply (entry_at_slot s i c t x Hwf Hi Hx). symmetry; exact E.
  - apply timeouts_sorted_filter. exact Hsort.
  - apply Forall_filter_sub. exact Hfr.
  - apply NoDup_app. split; [exact Hfn |]. split; [| apply NoDup_singleton].
    intros x Hx Hx2. apply list_elem_of_singleton in Hx2. subst x.
    apply Hnf. apply list_elem_of_In. exact Hx.
  - apply List.Forall_app. split.
    + apply List.Forall_forall. intros j Hj. rewrite List.Forall_forall in Hfe.
      destruct (Nat.eq_dec i j) as [<- | Hne]; [contradiction |].
      rewrite list_lookup_insert_ne by exact Hne. apply Hfe. exact Hj.
    + constructor; [apply list_lookup_insert_eq; exact Hlt | constructor].
  - intros j sl Hj. destruct (Nat.eq_dec i j) as [<- | Hne].
    + rewrite list_lookup_insert_eq in Hj by exact Hlt. injection Hj as <-.
      left; reflexivity.
    + rewrite list_lookup_insert_ne in Hj by exact Hne.
      destruct (Hs j sl Hj) as [E | (c' & e' & E & He' & Hej)]; [left; exact E | right].
      exists c', e'. split; [exact E |]. split; [| exact Hej].
      apply erase_In. split; [exact He' |].
      intros Et. apply Hne. rewrite <- Hej, <- Hei. f_equal.
      apply (NoDup_map_same tid (timeout_record_list s) e e' Htid He He'). congruence.
Qed.

(** Re-arming the deadline of a live slot of a consistent state: what
    [refresh] does. *)
Lemma refresh_live_eq (s : TcpServer) (i c t : nat) (now : Z) :
  INV s -> mgr s !! i = Some (mkSlot (Some c) (Some t)) ->
  Linux.refresh s i (mkSlot (Some c) (Some t)) now =
    Some (set_next_id (S (next_id s))
            (set_timeouts
               (tl_insert (mkEntry (next_id s) (now + connection_timeout (options s)) i)
                  (List.filter (fun x => negb (Nat.eqb (tid x) t)) (timeout_record_list s)))
               (set_mgr (<[i := mkSlot (Some c) (Some (next_id s))]> (mgr s)) s))).
Proof.
  intros HI Hi.
  destruct (INV_live_entry s i c t HI Hi) as (e & He & Ht & Hei).
  assert (Hm : tl_mem t (timeout_record_list s) = true).
  { unfold tl_mem. apply existsb_exists. exists e.
    split; [exact He | apply Nat.eqb_eq; exact Ht]. }
  unfold Linux.refresh. cbn [first second]. unfold tl_erase. rewrite Hm. reflexivity.
Qed.

(** ... and it keeps the invariant. *)
Lemma refresh_live_INV (s : TcpServer) (i c t : nat) (d : Z) :
  INV s -> mgr s !! i = Some (mkSlot (Some c) (Some t)) ->
  INV (set_next_id (S (next_id s))
         (set_timeouts
            (tl_insert (mkEntry (next_id s) d i)
               (List.filter (fun x => negb (Nat.eqb (tid x) t)) (timeout_record_list s)))
            (set_mgr (<[i := mkSlot (Some c) (Some (next_id s))]> (mgr s)) s))).
Proof.
  intros HI Hi. pose proof HI as (Hwf & Hfr & Hfree & Hs).
  pose proof Hwf as (Htid & Hidx & Hlive & Hsort).
  pose proof Hfree as (Hfn & Hfe).
  destruct (INV_live_entry s i c t HI Hi) as (e & He & Ht & Hei).
  assert (Hlt : (i < length (mgr s))%nat) by (eapply lookup_lt_Some; exact Hi).
  assert (Hnf : ~ In i (free_index_list s))
    by (apply (free_not_live s i _ Hfree Hi); discriminate).
  unfold fresh_ids in Hfr. rewrite List.Forall_forall in Hfr.
  unfold INV, WF, fresh_ids, free_ok, slots_ok, set_next_id, set_timeouts, set_mgr.
  cbn [timeout_record_list mgr free_index_list next_id].
  split; [split; [| split; [| split]] | split; [| split; [split |]]].
  - apply NoDup_map_tl_insert; [| apply NoDup_map_filter; exact Htid].
    cbn [tid]. intros Hin. apply in_map_iff in Hin as [x [E Hx]].
    apply erase_In in Hx as [Hx _]. specialize (Hfr x Hx). cbn beta in Hfr. lia.
  - apply NoDup_map_tl_insert; [| apply NoDup_map_filter; exact Hidx].
    cbn [eidx]. intros Hin. apply in_map_iff in Hin as [x [E Hx]].
    apply erase_In in Hx as [Hx Hxt]. apply Hxt.
    exact (entry_at_slot s i c t x Hwf Hi Hx E).
  - apply List.Forall_forall. intros x Hx. apply tl_insert_In in Hx as [<- | Hx].
    + exists c. cbn [eidx tid]. apply list_lookup_insert_eq. exact Hlt.
    + apply erase_In in Hx as [Hx Hxt].
      destruct (WF_entry_slot s x Hwf Hx) as [cx Hcx]. exists cx.
      rewrite list_lookup_insert_ne; [exact Hcx |].
      intros E. apply Hxt. apply (entry_at_slot s i c t x Hwf Hi Hx). symmetry; exact E.
  - apply tl_insert_sorted, timeouts_sorted_filter. exact Hsort.
  - apply List.Forall_forall. intros x Hx. apply tl_insert_In in Hx as [<- | Hx].
    + cbn [tid]. lia.
    + apply erase_In in Hx as [Hx _]. specialize (Hfr x Hx). cbn beta in Hfr. lia.
  - exact Hfn.
  - apply List.Forall_forall. intros j Hj. rewrite List.Forall_forall in Hfe.
    destruct (Nat.eq_dec i j) as [<- | Hne]; [contradiction |].
    rewrite list_lookup_insert_ne by exact Hne. apply Hfe. exact Hj.
  - intros j sl Hj. destruct (Nat.eq_dec i j) as [<- | Hne].
    + rewrite list_lookup_insert_eq in Hj by exact Hlt. injection Hj as <-.
      right. exists c, (mkEntry (next_id s) d i). split; [reflexivity |].
      split; [apply tl_insert_In; left; reflexivity | reflexivity].
    + rewrite list_lookup_insert_ne in Hj by exact Hne.
      destruct (Hs j sl Hj) as [E | (c' & e' & E & He' & Hej)]; [left; exact E | right].
      exists c', e'. split; [exact E |]. split; [| exact Hej].
      apply tl_insert_In. right. apply erase_In. split; [exact He' |].
      intros Et. apply Hne. rewrite <- Hej, <- Hei. f_equal.
      apply (NoDup_map_same tid (timeout_record_list s) e e' Htid He He'). congruence.
Qed.

Lemma lookup_repeat_lt {A : Type} (x : A) (n i : nat) :
  (i < n)%nat -> repeat x n !! i = Some x.
Proof.
  revert i. induction n as [| n IH]; intros i H; [lia |].
  destruct i as [| i]; [reflexivity |]. cbn [repeat]. apply IH. lia.
Qed.

Lemma resize_length (n : nat) (m : list Slot) :
  (length m <= n)%nat -> length (resize n m) = n.
Proof.
  intros H. unfold resize. rewrite take_ge by lia.
  rewrite length_app, repeat_length. lia.
Qed.

Lemma resize_lookup_lt (n : nat) (m : list Slot) (j : nat) :
  (length m <= n)%nat -> (j < length m)%nat -> resize n m !! j = m !! j.
Proof.
  intros Hn Hj. unfold resize. rewrite take_ge by lia. apply lookup_app_l. exact Hj.
Qed.

Lemma resize_lookup_new (n : nat) (m : list Slot) (j : nat) :
  (length m <= j < n)%nat -> resize n m !! j = Some empty_slot.
Proof.
  intros H. unfold resize. rewrite take_ge by lia.
  rewrite lookup_app_r by lia. apply lookup_repeat_lt. lia.
Qed.

Lemma resize_lookup_Some (n : nat) (m : list Slot) (j : nat) (sl : Slot) :
  (length m <= n)%nat -> resize n m !! j = Some sl ->
  m !! j = Some sl \/ sl = empty_slot.
Proof.
  intros Hn Hj. destruct (Nat.lt_ge_cases j (length m)) as [Hl | Hl].
  - left. rewrite <- (resize_lookup_lt n m j Hn Hl). exact Hj.
  - right. assert (Hlt : (j < n)%nat).
    { rewrite <- (resize_length n m Hn). eapply lookup_lt_Some. exact Hj. }
    rewrite resize_lookup_new in Hj by lia. congruence.
Qed.

(** Growing the table to [n] slots, with the new indices appended to the
    free list in order, keeps the invariant. *)
Lemma resize_INV (s : TcpServer) (n : nat) :
  INV s -> (length (mgr s) <= n)%nat ->
  INV (set_free (free_index_list s ++ seq (length (mgr s)) (n - length (mgr s)))
         (set_mgr (resize n (mgr s)) s)).
Proof.
  intros HI Hn. pose proof HI as (Hwf & Hfr & Hfree & Hs).
  pose proof Hwf as (Htid & Hidx & Hlive & Hsort).
  pose proof Hfree as (Hfn & Hfe). rewrite List.Forall_forall in Hfe.
  unfold INV, WF, fresh_ids, free_ok, slots_ok, set_free, set_mgr.
  cbn [timeout_record_list mgr free_index_list next_id].
  split; [split; [exact Htid | split; [exact Hidx | split; [| exact Hsort]]] |
          split; [exact Hfr | split; [split |]]].
  - apply List.Forall_forall. intros x Hx.
    destruct (WF_entry_slot s x Hwf Hx) as [cx Hcx]. exists cx.
    rewrite resize_lookup_lt; [exact Hcx | exact Hn | eapply lookup_lt_Some; exact Hcx].
  - apply NoDup_app. split; [exact Hfn |]. split; [| apply NoDup_seq].
    intros x Hx Hx2. apply elem_of_seq in Hx2. apply list_elem_of_In in Hx.
    specialize (Hfe x Hx). apply lookup_lt_Some in Hfe. lia.
  - apply List.Forall_app. split.
    + apply List.Forall_forall. intros j Hj. specialize (Hfe j Hj).
      rewrite resize_lookup_lt; [exact Hfe | exact Hn | eapply lookup_lt_Some; exact Hfe].
    + apply List.Forall_forall. intros j Hj. apply in_seq in Hj.
      apply resize_lookup_new. lia.
  - intros j sl Hj. destruct (resize_lookup_Some n (mgr s) j sl Hn Hj) as [H | H].
    + exact (Hs j sl H).
    + left. exact H.
Qed.

(** Installing a new connection in the first free slot keeps the
    invariant. *)
Lemma install_INV (s : TcpServer) (index : nat) (rest : list nat) (d : Z) :
  INV s -> free_index_list s = index :: rest ->
  INV (set_next_id (S (S (next_id s)))
         (set_timeouts (tl_insert (mkEntry (S (next_id s)) d index) (timeout_record_list s))
            (set_mgr (<[index := mkSlot (Some (next_id s)) (Some (S (next_id s)))]> (mgr s))
               (set_free rest s)))).
Proof.
  intros HI Hf. pose proof HI as (Hwf & Hfr & Hfree & Hs).
  pose proof Hwf as (Htid & Hidx & Hlive & Hsort).
  pose proof Hfree as (Hfn & Hfe). rewrite List.Forall_forall in Hfe.
  unfold fresh_ids in Hfr. rewrite List.Forall_forall in Hfr.
  assert (H0 : mgr s !! index = Some empty_slot) by (apply Hfe; rewrite Hf; left; reflexivity).
  assert (Hlt : (index < length (mgr s))%nat) by (eapply lookup_lt_Some; exact H0).
  rewrite Hf in Hfn. apply NoDup_cons in Hfn as [Hnr Hfn].
  unfold INV, WF, fresh_ids, free_ok, slots_ok, set_next_id, set_free, set_timeouts, set_mgr.
  cbn [timeout_record_list mgr free_index_list next_id].
  split; [split; [| split; [| split]] | split; [| split; [split |]]].
  - apply NoDup_map_tl_insert; [| exact Htid].
    cbn [tid]. intros Hin. apply in_map_iff in Hin as [x [E Hx]].
    specialize (Hfr x Hx). cbn beta in Hfr. lia.
  - apply NoDup_map_tl_insert; [| exact Hidx].
    cbn [eidx]. intros Hin. apply in_map_iff in Hin as [x [E Hx]].
    exact (free_not_entry s index x Hwf H0 Hx E).
  - apply List.Forall_forall. intros x Hx. apply tl_insert_In in Hx as [<- | Hx].
    + exists (next_id s). cbn [eidx tid]. apply list_lookup_insert_eq. exact Hlt.
    + destruct (WF_entry_slot s x Hwf Hx) as [cx Hcx]. exists cx.
      rewrite list_lookup_insert_ne; [exact Hcx |].
      intros E. exact (free_not_entry s index x Hwf H0 Hx (eq_sym E)).
  - apply tl_insert_sorted. exact Hsort.
  - apply List.Forall_forall. intros x Hx. apply tl_insert_In in Hx as [<- | Hx].
    + cbn [tid]. lia.
    + specialize (Hfr x Hx). cbn beta in Hfr. lia.
  - exact Hfn.
  - apply List.Forall_forall. intros j Hj.
    destruct (Nat.eq_dec index j) as [<- | Hne].
    + exfalso. apply Hnr. apply list_elem_of_In. exact Hj.
    + rewrite list_lookup_insert_ne by exact Hne. apply Hfe. rewrite Hf. right. exact Hj.
  - intros j sl Hj. destruct (Nat.eq_dec index j) as [<- | Hne].
    + rewrite list_lookup_insert_eq in Hj by exact Hlt. injection Hj as <-.
      right. exists (next_id s), (mkEntry (S (next_id s)) d index).
      split; [reflexivity |]. split; [apply tl_insert_In; left; reflexivity | reflexivity].
    + rewrite list_lookup_insert_ne in Hj by exact Hne.
      destruct (Hs j sl Hj) as [E | (c' & e' & E & He' & Hej)]; [left; exact E | right].
      exists c', e'. split; [exact E |]. split; [| exact Hej].
      apply tl_insert_In. right. exact He'.
Qed.

(** The state [OnNewConnection] works on after the growth step keeps the
    invariant. *)
Lemma grown_INV (s : TcpServer) :
  INV s ->
  (match free_index_list s with [] => true | _ => false end)
    && (Z.of_nat (length (mgr s)) >=? max_connections (options s)) = false ->
  INV (match free_index_list s with [] => Linux.grow s | _ => s end).
Proof.
  intros HI Hg. destruct (free_index_list s) as [| j r] eqn:Hf; [| exact HI].
  cbn [andb] in Hg. rewrite Z.geb_leb in Hg. apply Z.leb_gt in Hg.
  unfold Linux.grow. cbv zeta.
  destruct (Nat.ltb_spec (length (mgr s) * 2) (Z.to_nat (max_connections (options s))));
    apply resize_INV; first [exact HI | lia].
Qed.

Lemma live_slot_shape (s : TcpServer) (i c : nat) (sl : Slot) :
  INV s -> mgr s !! i = Some sl -> first sl = Some c ->
  exists t, sl = mkSlot (Some c) (Some t).
Proof.
  intros (_ & _ & _ & Hs) Hi Hc.
  destruct (Hs i sl Hi) as [-> | (c' & e & -> & _ & _)]; [discriminate Hc |].
  cbn [first] in Hc. injection Hc as ->. exists (tid e). reflexivity.
Qed.

(** Under the invariant, deleting a live slot never faults. *)
Lemma delete_INV (s : TcpServer) (i c : nat) (sl : Slot) :
  INV s -> mgr s !! i = Some sl -> first sl = Some c ->
  exists s', Linux.DeleteConnection s i = Some (s', [ConnDelete c]) /\ INV s' /\
    mgr s' !! i = Some empty_slot /\
    free_index_list s' = free_index_list s ++ [i] /\
    options s' = options s /\ magic_number s' = magic_number s /\
    (forall j, j <> i -> mgr s' !! j = mgr s !! j) /\
    (forall e, In e (timeout_record_list s') <-> In e (timeout_record_list s) /\ eidx e <> i).
Proof.
  intros HI Hi Hc. destruct (live_slot_shape s i c sl HI Hi Hc) as [t ->].
  eexists. split; [exact (delete_live_eq s i c t HI Hi) |].
  split; [exact (delete_live_INV s i c t HI Hi) |].
  assert (Hlt : (i < length (mgr s))%nat) by (eapply lookup_lt_Some; exact Hi).
  unfold set_free, set_timeouts, set_mgr.
  cbn [mgr free_index_list options magic_number timeout_record_list].
  split; [apply list_lookup_insert_eq; exact Hlt |].
  split; [reflexivity |]. split; [reflexivity |]. split; [reflexivity |].
  split; [intros j Hj; apply list_lookup_insert_ne; auto |].
  destruct (INV_live_entry s i c t HI Hi) as (e0 & He0 & Ht0 & Hei0).
  destruct HI as (Hwf & _).
  intros e. rewrite erase_In. split; intros [He Hne]; split; auto.
  - intros E. apply Hne. exact (entry_at_slot s i c t e Hwf Hi He E).
  - intros E. apply Hne. rewrite <- Hei0. f_equal.
    apply (NoDup_map_same tid (timeout_record_list s) e e0); auto.
    + destruct Hwf as (H & _). exact H.
    + congruence.
Qed.

(** Under the invariant, re-arming a live slot never faults. *)
Lemma refresh_INV (s : TcpServer) (i c : nat) (sl : Slot) (now : Z) :
  INV s -> mgr s !! i = Some sl -> first sl = Some c ->
  exists s', Linux.refresh s i sl now = Some s' /\ INV s' /\
    options s' = options s /\ magic_number s' = magic_number s /\
    free_index_list s' = free_index_list s /\
    (exists t, mgr s' !! i = Some (mkSlot (Some c) (Some t)) /\
       In (mkEntry t (now + connection_timeout (options s)) i) (timeout_record_list s')) /\
    (forall e, In e (timeout_record_list s') -> eidx e = i ->
       deadline e = now + connection_timeout (options s)).
Proof.
  intros HI Hi Hc. destruct (live_slot_shape s i c sl HI Hi Hc) as [t ->].
  eexists. split; [exact (refresh_live_eq s i c t now HI Hi) |].
  split; [exact (refresh_live_INV s i c t _ HI Hi) |].
  assert (Hlt : (i < length (mgr s))%nat) by (eapply lookup_lt_Some; exact Hi).
  unfold set_next_id, set_timeouts, set_mgr.
  cbn [mgr free_index_list options magic_number timeout_record_list].
  split; [reflexivity |]. split; [reflexivity |]. split; [reflexivity |].
  split.
  - exists (next_id s). split; [apply list_lookup_insert_eq; exact Hlt |].
    apply tl_insert_In. left. reflexivity.
  - intros e He Hei. apply tl_insert_In in He as [<- | He]; [reflexivity |].
    apply erase_In in He as [He Hne]. exfalso. apply Hne.
    destruct HI as (Hwf & _). exact (entry_at_slot s i c t e Hwf Hi He Hei).
Qed.

Lemma OnNewConnection_INV (s s' : TcpServer) (sock port now : Z) (eff : list Effect) :
  INV s -> Linux.OnNewConnection s sock port now = Some (s', eff) -> INV s'.
Proof.
  intros HI H. unfold Linux.OnNewConnection in H.
  destruct ((match free_index_list s with [] => true | _ => false end)
            && (Z.of_nat (length (mgr s)) >=? max_connections (options s))) eqn:Hg.
  - injection H as <- _. exact HI.
  - pose proof (grown_INV s HI Hg) as HI1. revert H HI1.
    generalize (match free_index_list s with [] => Linux.grow s | _ => s end) as s1.
    intros s1 H HI1.
    destruct (free_index_list s1) as [| index rest] eqn:Hf; [discriminate H |].
    destruct (mgr s1 !! index) as [sl |]; [| discriminate H].
    injection H as <- _. exact (install_INV s1 index rest _ HI1 Hf).
Qed.

(** Evicting the expired entries of a consistent state keeps the
    invariant. *)
Lemma evict_INV (s : TcpServer) (current : Z) :
  INV s ->
  INV (set_free (free_index_list s ++
                 map eidx (expired current (timeout_record_list s)))
         (set_timeouts (pending current (timeout_record_list s))
            (set_mgr (clear_slots (map eidx (expired current (timeout_record_list s)))
                        (mgr s)) s))).
Proof.
  intros HI. pose proof HI as (Hwf & Hfr & Hfree & Hs).
  pose proof Hwf as (Htid & Hidx & Hlive & Hsort).
  pose proof Hfree as (Hfn & Hfe). rewrite List.Forall_forall in Hfe.
  assert (Hpn : forall x, In x (timeout_record_list s) -> current < deadline x ->
                 ~ In (eidx x) (map eidx (expired current (timeout_record_list s)))).
  { intros x Hx Hd Hin. apply in_map_iff in Hin as [y [E Hy]].
    unfold expired in Hy. apply List.filter_In in Hy as [Hy Hyd]. apply Z.leb_le in Hyd.
    assert (y = x) by (apply (NoDup_map_same eidx (timeout_record_list s)); auto).
    subst y. lia. }
  assert (Hxl : forall j, In j (map eidx (expired current (timeout_record_list s))) ->
                 exists y, In y (timeout_record_list s) /\ eidx y = j).
  { intros j Hj. apply in_map_iff in Hj as [y [E Hy]].
    unfold expired in Hy. apply List.filter_In in Hy as [Hy _]. eauto. }
  unfold INV, WF, fresh_ids, free_ok, slots_ok, set_free, set_timeouts, set_mgr.
  cbn [timeout_record_list mgr free_index_list next_id].
  split; [split; [| split; [| split]] | split; [| split; [split |]]].
  - apply NoDup_map_filter. exact Htid.
  - apply NoDup_map_filter. exact Hidx.
  - apply List.Forall_forall. intros x Hx.
    unfold pending in Hx. apply List.filter_In in Hx as [Hx Hd]. apply Z.ltb_lt in Hd.
    destruct (WF_entry_slot s x Hwf Hx) as [cx Hcx]. exists cx.
    rewrite clear_slots_lookup_notin; [exact Hcx | exact (Hpn x Hx Hd)].
  - apply timeouts_sorted_filter. exact Hsort.
  - apply Forall_filter_sub. exact Hfr.
  - apply NoDup_app. split; [exact Hfn |]. split; [| apply NoDup_map_filter; exact Hidx].
    intros j Hj Hj2. apply list_elem_of_In in Hj, Hj2.
    destruct (Hxl j Hj2) as (y & Hy & <-).
    exact (free_not_entry s (eidx y) y Hwf (Hfe _ Hj) Hy eq_refl).
  - apply List.Forall_app. split.
    + apply List.Forall_forall. intros j Hj.
      rewrite clear_slots_lookup_notin; [exact (Hfe j Hj) |].
      intros Hj2. destruct (Hxl j Hj2) as (y & Hy & <-).
      exact (free_not_entry s (eidx y) y Hwf (Hfe _ Hj) Hy eq_refl).
    + apply List.Forall_forall. intros j Hj. apply clear_slots_lookup_in; [exact Hj |].
      destruct (Hxl j Hj) as (y & Hy & <-).
      destruct (WF_entry_slot s y Hwf Hy) as [cy Hcy]. eapply lookup_lt_Some. exact Hcy.
  - intros j sl Hj.
    destruct (in_dec Nat.eq_dec j (map eidx (expired current (timeout_record_list s))))
      as [Hin | Hin].
    + left. rewrite clear_slots_lookup_in in Hj; [congruence | exact Hin |].
      rewrite <- (clear_slots_length (map eidx (expired current (timeout_record_list s)))).
      eapply lookup_lt_Some. exact Hj.
    + rewrite clear_slots_lookup_notin in Hj by exact Hin.
      destruct (Hs j sl Hj) as [E | (c' & e' & E & He' & Hej)]; [left; exact E | right].
      exists c', e'. split; [exact E |]. split; [| exact Hej].
      unfold pending. apply List.filter_In. split; [exact He' |].
      apply Z.ltb_lt. destruct (Z.ltb_spec current (deadline e')) as [| Hle]; [assumption |].
      exfalso. apply Hin. rewrite <- Hej. apply in_map. unfold expired.
      apply List.filter_In. split; [exact He' | apply Z.leb_le; exact Hle].
Qed.

Lemma INV_empty (s : TcpServer) :
  mgr s = [] -> timeout_record_list s = [] -> free_index_list s = [] -> INV s.
Proof.
  intros Hm Ht Hf. unfold INV, WF, fresh_ids, free_ok, slots_ok, timeouts_sorted.
  rewrite Hm, Ht, Hf. cbn [map].
  split; [split; [constructor | split; [constructor | split; constructor]] |].
  split; [constructor |]. split; [split; constructor |].
  intros i sl H. rewrite lookup_nil in H. discriminate H.
Qed.

Lemma init_ok_eq (s : TcpServer) (o : RaptorOptions) (n : Z) :
  shutdown s = true ->
  init_ok s o n =
    mkServer false true o (resize RESERVED_CONNECTION_COUNT (mgr s))
      (timeout_record_list s) (free_index_list s ++ seq 0 RESERVED_CONNECTION_COUNT)
      (Z.land (Z.shiftr n 16) 65535) n (mpscq s) 0 (next_id s).
Proof. intros H. unfold init_ok, Linux.Init. rewrite H. reflexivity. Qed.

(** A successful [Init] from a cleared state is consistent. *)
Lemma init_ok_INV (s : TcpServer) (o : RaptorOptions) (n : Z) :
  shutdown s = true -> mgr s = [] -> timeout_record_list s = [] ->
  free_index_list s = [] -> INV (init_ok s o n).
Proof.
  intros Hs Hm Ht Hf.
  pose proof (resize_INV s RESERVED_CONNECTION_COUNT (INV_empty s Hm Ht Hf)) as H.
  rewrite Hm in H. cbn [length] in H.
  specialize (H ltac:(unfold RESERVED_CONNECTION_COUNT; lia)).
  rewrite (init_ok_eq s o n Hs).
  destruct H as (Hwf & Hfr & Hfree & Hsl).
  unfold INV, WF, fresh_ids, free_ok, slots_ok in *.
  unfold set_free, set_mgr in *.
  cbn [mgr timeout_record_list free_index_list next_id] in *.
  rewrite Hm, Hf. rewrite Hf in Hfree.
  replace (RESERVED_CONNECTION_COUNT - 0)%nat with RESERVED_CONNECTION_COUNT in * by reflexivity.
  auto.
Qed.

Lemma Check_fields (inv : Z) (s s' : TcpServer) (cid : Z) :
  options s' = options s -> magic_number s' = magic_number s ->
  CheckConnectionId inv s' cid = CheckConnectionId inv s cid.
Proof. intros Ho Hm. unfold CheckConnectionId. rewrite Ho, Hm. reflexivity. Qed.

(** Windows' sweep loop evicts exactly like the Linux one. *)
Lemma windows_sweep_eq (f : nat) :
  forall current it s, Windows.sweep f current it s = Linux.sweep f current it s.
Proof.
  induction f as [| f IH]; intros current it s; [reflexivity |].
  destruct it as [t |]; [| reflexivity]. cbn [Windows.sweep Linux.sweep].
  destruct (tl_find t (timeout_record_list s)) as [e |]; [| reflexivity].
  destruct (current <? deadline e); [reflexivity |].
  destruct (mgr s !! eidx e) as [sl |] eqn:Hsl; [| reflexivity].
  destruct (first sl) as [c |] eqn:Hc; [| reflexivity].
  unfold Linux.DeleteConnection. rewrite Hsl, Hc.
  destruct (tl_erase (second sl) (timeout_record_list s)); [| reflexivity].
  cbn [fst snd]. rewrite IH. reflexivity.
Qed.

(** [DeleteConnection] of both platforms agree on a live slot. *)
Lemma windows_delete_live (s : TcpServer) (i c : nat) (sl : Slot) :
  mgr s !! i = Some sl -> first sl = Some c ->
  Windows.DeleteConnection s i = Linux.DeleteConnection s i.
Proof.
  intros Hsl Hc. unfold Windows.DeleteConnection, Linux.DeleteConnection.
  rewrite Hsl, Hc. reflexivity.
Qed.

Lemma Shutdown_running (s : TcpServer) :
  shutdown s = false ->
  fst (Linux.Shutdown s) =
    mkServer true (components s) (options s) [] [] [] (magic_number s)
      (last_timeout_time s) [] (count s - Z.of_nat (length (mpscq s))) (next_id s).
Proof. intros H. unfold Linux.Shutdown. rewrite H. reflexivity. Qed.

Lemma INV_one_s1 : INV one_s1.
Proof.
  assert (H0 : INV one_s0)
    by (apply init_ok_INV; reflexivity).
  assert (E : exists eff, Linux.OnNewConnection one_s0 10 80 T0 = Some (one_s1, eff))
    by (eexists; vm_compute; reflexivity).
  destruct E as [eff E]. exact (OnNewConnection_INV _ _ _ _ _ _ H0 E).
Qed.

Lemma INV_sweep_s : INV sweep_s.
Proof.
  assert (E : exists eff, Linux.OnNewConnection one_s1 11 80 (T0 + 10) = Some (sweep_s, eff))
    by (eexists; vm_compute; reflexivity).
  destruct E as [eff E]. exact (OnNewConnection_INV _ _ _ _ _ _ INV_one_s1 E).
Qed.

Lemma Close_unfold (inv : Z) (s : TcpServer) (cid : Z) :
  Linux.CloseConnection inv s cid =
  (if CheckConnectionId inv s cid =? InvalidIndex then Some (false, s, [])
   else
     let? sl := mgr s !! Z.to_nat (CheckConnectionId inv s cid) in
     match first sl with
     | Some c =>
         let? r := Linux.DeleteConnection s (Z.to_nat (CheckConnectionId inv s cid)) in
         Some (true, fst r, ConnShutdown c false :: snd r)
     | None => Some (true, s, [])
     end).
Proof. reflexivity. Qed.

(** ** Further properties of the server *)

(** [Init] on a fresh server, and [Init] after [Shutdown] of a running
    server, both build a consistent state: 100 empty slots, the free list
    [0 .. 99], an empty timeout index, an empty message queue and a zero
    counter.  After the [Shutdown] nothing of the old table, index, free list
    or queue survives the restart. *)
Theorem restart_rebuilds_fresh_table (s : TcpServer) (o : RaptorOptions) (n : Z)
    (Hrun : shutdown s = false) :
  INV (init_ok new_server o n) /\
  mgr (init_ok new_server o n) = repeat empty_slot RESERVED_CONNECTION_COUNT /\
  free_index_list (init_ok new_server o n) = seq 0 RESERVED_CONNECTION_COUNT /\
  timeout_record_list (init_ok new_server o n) = [] /\
  INV (init_ok (fst (Linux.Shutdown s)) o n) /\
  mgr (init_ok (fst (Linux.Shutdown s)) o n) = mgr (init_ok new_server o n) /\
  free_index_list (init_ok (fst (Linux.Shutdown s)) o n) =
    free_index_list (init_ok new_server o n) /\
  timeout_record_list (init_ok (fst (Linux.Shutdown s)) o n) = [] /\
  mpscq (init_ok (fst (Linux.Shutdown s)) o n) = [] /\
  count (init_ok (fst (Linux.Shutdown s)) o n) = 0.
Proof.
  pose proof (Shutdown_running s Hrun) as Hsd.
  split; [apply init_ok_INV; reflexivity |].
  rewrite (init_ok_eq new_server o n eq_refl). cbn [mgr free_index_list timeout_record_list].
  split; [reflexivity |]. split; [reflexivity |]. split; [reflexivity |].
  split; [rewrite Hsd; apply init_ok_INV; reflexivity |].
  rewrite Hsd, init_ok_eq by reflexivity.
  cbn [mgr free_index_list timeout_record_list mpscq count].
  repeat match goal with |- _ /\ _ => split end; reflexivity.
Qed.

Lemma restart_rebuilds_fresh_table_witness :
  shutdown one_s1 = false /\
  mgr (init_ok (fst (Linux.Shutdown one_s1)) (mkOptions 100 60) (T0 + 5)) =
    repeat empty_slot RESERVED_CONNECTION_COUNT.
Proof.
  assert (H : shutdown one_s1 = false) by (vm_compute; reflexivity).
  split; [exact H |].
  destruct (restart_rebuilds_fresh_table one_s1 (mkOptions 100 60) (T0 + 5) H)
    as (_ & Hm & _ & _ & _ & Hm' & _).
  rewrite Hm'. exact Hm.
Defined.

(** On a consistent state the Linux timeout check never faults and leaves
    the state consistent, whether it is rate-limited or sweeps. *)
Theorem linux_timeout_check_keeps_INV (s : TcpServer) (current : Z) (HI : INV s) :
  exists s' eff, Linux.OnCheckingEvent s current = Some (s', eff) /\ INV s'.
Proof.
  unfold Linux.OnCheckingEvent.
  destruct (current - last_timeout_time s <? 1); [eauto |].
  assert (HI1 : INV (set_last_timeout_time current s)) by exact HI.
  rewrite (sweep_correct current _ (set_last_timeout_time current s) _ eq_refl
             (proj1 HI1) (Nat.lt_succ_diag_r _)).
  do 2 eexists. split; [reflexivity |]. exact (evict_INV _ current HI1).
Qed.

Lemma linux_timeout_check_keeps_INV_witness :
  INV sweep_s /\
  exists s' eff, Linux.OnCheckingEvent sweep_s (T0 + 65) = Some (s', eff) /\ INV s'.
Proof.
  split; [exact INV_sweep_s |].
  exact (linux_timeout_check_keeps_INV sweep_s (T0 + 65) INV_sweep_s).
Defined.

(** On a consistent state, [CloseConnection] answers [true] exactly when the
    cid validates, keeps the state consistent, and a second call with the
    same cid answers the same and does nothing.  On a live connection it
    shuts it down gracefully and deletes it: the slot is emptied, its index
    goes to the back of the free list and its timeout entry leaves the
    index. *)
Theorem linux_close_connection_idempotent (inv : Z) (s : TcpServer) (cid : Z)
    (HI : INV s) :
  (forall b s' eff, Linux.CloseConnection inv s cid = Some (b, s', eff) ->
     INV s' /\ b = negb (CheckConnectionId inv s cid =? InvalidIndex) /\
     Linux.CloseConnection inv s' cid = Some (b, s', [])) /\
  (forall i c sl, CheckConnectionId inv s cid = Z.of_nat i -> Z.of_nat i <> InvalidIndex ->
     mgr s !! i = Some sl -> first sl = Some c ->
     exists s', Linux.CloseConnection inv s cid =
                  Some (true, s', [ConnShutdown c false; ConnDelete c]) /\
       mgr s' !! i = Some empty_slot /\
       free_index_list s' = free_index_list s ++ [i] /\
       (forall e, In e (timeout_record_list s') <->
                  In e (timeout_record_list s) /\ eidx e <> i)).
Proof.
  split.
  - intros b s' eff H. rewrite Close_unfold in H.
    destruct (CheckConnectionId inv s cid =? InvalidIndex) eqn:Hv.
    + injection H as <- <- <-. split; [exact HI |]. split; [reflexivity |].
      rewrite Close_unfold, Hv. reflexivity.
    + destruct (mgr s !! Z.to_nat (CheckConnectionId inv s cid)) as [sl |] eqn:Hsl;
        [| discriminate H].
      destruct (first sl) as [c |] eqn:Hc.
      * destruct (delete_INV s _ c sl HI Hsl Hc)
          as (s1 & Hd & HI1 & Hemp & _ & Ho & Hm & _ & _).
        rewrite Hd in H. cbn [fst snd] in H. injection H as <- <- <-.
        split; [exact HI1 |]. split; [reflexivity |].
        rewrite Close_unfold, (Check_fields inv s s1 cid Ho Hm), Hv, Hemp.
        reflexivity.
      * injection H as <- <- <-. split; [exact HI |]. split; [reflexivity |].
        rewrite Close_unfold, Hv, Hsl, Hc. reflexivity.
  - intros i c sl Hv Hvi Hsl Hc.
    destruct (delete_INV s i c sl HI Hsl Hc)
      as (s1 & Hd & _ & Hemp & Hfree & _ & _ & _ & Htl).
    exists s1. rewrite Close_unfold, Hv.
    replace (Z.of_nat i =? InvalidIndex) with false by (symmetry; apply Z.eqb_neq; exact Hvi).
    rewrite Nat2Z.id, Hsl, Hc, Hd. cbn [fst snd].
    split; [reflexivity |]. auto.
Qed.

Lemma linux_close_connection_idempotent_witness :
  INV one_s1 /\
  exists s', Linux.CloseConnection InvalidAllOnes one_s1 (BuildConnectionId magic_T0 80 0) =
               Some (true, s', [ConnShutdown 0 false; ConnDelete 0]) /\
    Linux.CloseConnection InvalidAllOnes s' (BuildConnectionId magic_T0 80 0) =
      Some (true, s', []).
Proof.
  split; [exact INV_one_s1 |].
  destruct (linux_close_connection_idempotent InvalidAllOnes one_s1
              (BuildConnectionId magic_T0 80 0) INV_one_s1) as [H1 H2].
  destruct (H2 0%nat 0%nat (mkSlot (Some 0%nat) (Some 1%nat)))
    as (s' & Hc & _).
  - vm_compute. reflexivity.
  - vm_compute. discriminate.
  - vm_compute. reflexivity.
  - reflexivity.
  - exists s'. split; [exact Hc |].
    destruct (H1 _ _ _ Hc) as (_ & _ & H). exact H.
Defined.

(** Windows' [CloseConnection] and [OnErrorEvent] behave exactly as Linux's
    on every state, and its timeout check is Linux's once 3 seconds have
    passed since the last sweep; before that it does nothing. *)
Theorem windows_close_error_check_match_linux (inv : Z) (s : TcpServer) (cid current : Z) :
  Windows.CloseConnection inv s cid = Linux.CloseConnection inv s cid /\
  Windows.OnErrorEvent inv s cid = Linux.OnErrorEvent inv s cid /\
  (3 <= current - last_timeout_time s ->
     Windows.OnCheckingEvent s current = Linux.OnCheckingEvent s current) /\
  (current - last_timeout_time s < 3 -> Windows.OnCheckingEvent s current = Some (s, [])).
Proof.
  split; [| split; [| split]].
  - unfold Windows.CloseConnection, Linux.CloseConnection, Windows.GetConnection.
    cbv beta zeta.
    destruct (CheckConnectionId inv s cid =? InvalidIndex); [reflexivity |].
    destruct (mgr s !! Z.to_nat (CheckConnectionId inv s cid)) as [sl |] eqn:Hsl;
      [| reflexivity].
    destruct (first sl) as [c |] eqn:Hc; [| reflexivity].
    rewrite (windows_delete_live s _ c sl Hsl Hc). reflexivity.
  - unfold Windows.OnErrorEvent, Linux.OnErrorEvent, Windows.GetConnection.
    cbv beta zeta.
    destruct (CheckConnectionId inv s cid =? InvalidIndex); [reflexivity |].
    destruct (mgr s !! Z.to_nat (CheckConnectionId inv s cid)) as [sl |] eqn:Hsl;
      [| reflexivity].
    destruct (first sl) as [c |] eqn:Hc; [| reflexivity].
    rewrite (windows_delete_live s _ c sl Hsl Hc). reflexivity.
  - intros H. unfold Windows.OnCheckingEvent, Linux.OnCheckingEvent.
    replace (current - last_timeout_time s <? 3) with false by (symmetry; apply Z.ltb_ge; lia).
    replace (current - last_timeout_time s <? 1) with false by (symmetry; apply Z.ltb_ge; lia).
    apply windows_sweep_eq.
  - intros H. unfold Windows.OnCheckingEvent.
    replace (current - last_timeout_time s <? 3) with true by (symmetry; apply Z.ltb_lt; lia).
    reflexivity.
Qed.



Lemma land_small (x : Z) (k : Z) :
  0 <= k -> 0 <= x < 2 ^ k -> Z.land x (Z.ones k) = x.
Proof. intros Hk Hx. rewrite Z.land_ones by exact Hk. apply Z.mod_small. exact Hx. Qed.

(** Accepting into a free slot: the first free index is taken. *)
Lemma accept_free_slot (s : TcpServer) (sock port now : Z) (index : nat) (rest : list nat) :
  INV s -> free_index_list s = index :: rest ->
  exists s',
    Linux.OnNewConnection s sock port now =
      Some (s', [ConnNew (next_id s); ConnSetProtocol (next_id s);
                 ConnInit (next_id s) (BuildConnectionId (magic_number s) port (Z.of_nat index)) sock]) /\
    INV s' /\ free_index_list s' = rest /\
    mgr s' !! index = Some (mkSlot (Some (next_id s)) (Some (S (next_id s)))) /\
    In (mkEntry (S (next_id s)) (now + connection_timeout (options s)) index)
       (timeout_record_list s') /\
    (forall j, j <> index -> mgr s' !! j = mgr s !! j) /\
    options s' = options s /\ magic_number s' = magic_number s.
Proof.
  intros HI Hfree.
  pose proof HI as (_ & _ & (_ & Hfe) & _). rewrite List.Forall_forall in Hfe.
  assert (Hlk : mgr s !! index = Some empty_slot) by (apply Hfe; rewrite Hfree; left; reflexivity).
  assert (Hlt : (index < length (mgr s))%nat) by (eapply lookup_lt_Some; exact Hlk).
  eexists. split.
  { unfold Linux.OnNewConnection. cbv zeta. rewrite Hfree. cbn [andb].
    rewrite Hfree. cbn [andb]. rewrite Hlk. reflexivity. }
  split; [exact (install_INV s index rest _ HI Hfree) |].
  unfold set_next_id, set_timeouts, set_mgr, set_free.
  cbn [mgr free_index_list options magic_number timeout_record_list].
  split; [reflexivity |].
  split; [apply list_lookup_insert_eq; exact Hlt |].
  split; [apply tl_insert_In; left; reflexivity |].
  split; [intros j Hj; apply list_lookup_insert_ne; auto |].
  split; reflexivity.
Qed.

Lemma grow_facts (s : TcpServer) :
  free_index_list s = [] ->
  let n := if Nat.ltb (length (mgr s) * 2) (Z.to_nat (max_connections (options s)))
           then (length (mgr s) * 2)%nat else Z.to_nat (max_connections (options s)) in
  (length (mgr s) <= n)%nat ->
  length (mgr (Linux.grow s)) = n /\
  free_index_list (Linux.grow s) = seq (length (mgr s)) (n - length (mgr s)) /\
  (forall j, (j < length (mgr s))%nat -> mgr (Linux.grow s) !! j = mgr s !! j) /\
  next_id (Linux.grow s) = next_id s /\ options (Linux.grow s) = options s /\
  magic_number (Linux.grow s) = magic_number s.
Proof.
  intros Hf n Hn. unfold Linux.grow. cbv zeta. fold n.
  unfold set_free, set_mgr. cbn [mgr free_index_list next_id options magic_number].
  rewrite Hf. split; [apply resize_length; exact Hn |]. split; [reflexivity |].
  split; [intros j Hj; apply resize_lookup_lt; assumption |]. auto.
Qed.

(** What an accept returning a new connection leaves behind. *)
Lemma accept_result (s s' : TcpServer) (sock port now cid : Z) (c : nat) :
  INV s ->
  Linux.OnNewConnection s sock port now = Some (s', [ConnNew c; ConnSetProtocol c; ConnInit c cid sock]) ->
  exists index t, cid = BuildConnectionId (magic_number s) port (Z.of_nat index) /\
    mgr s' !! index = Some (mkSlot (Some c) (Some t)) /\
    options s' = options s /\ magic_number s' = magic_number s /\ INV s'.
Proof.
  intros HI H. unfold Linux.OnNewConnection in H.
  destruct ((match free_index_list s with [] => true | _ => false end)
            && (Z.of_nat (length (mgr s)) >=? max_connections (options s))) eqn:Hg.
  { injection H as _ E. discriminate E. }
  pose proof (grown_INV s HI Hg) as HI1.
  assert (Hom : options (match free_index_list s with [] => Linux.grow s | _ => s end) = options s /\
                magic_number (match free_index_list s with [] => Linux.grow s | _ => s end) =
                magic_number s) by (destruct (free_index_list s); split; reflexivity).
  revert H HI1 Hom.
  generalize (match free_index_list s with [] => Linux.grow s | _ => s end) as s1.
  intros s1 H HI1 [Ho Hm].
  destruct (free_index_list s1) as [| index rest] eqn:Hf; [discriminate H |].
  destruct (mgr s1 !! index) as [sl |] eqn:Hsl; [| discriminate H].
  injection H; intros; subst.
  exists index, (S (next_id s1)).
  assert (Hlt : (index < length (mgr s1))%nat) by (eapply lookup_lt_Some; exact Hsl).
  split; [rewrite Hm; reflexivity |].
  split; [cbn [mgr set_next_id set_timeouts set_mgr]; apply list_lookup_insert_eq; exact Hlt |].
  split; [exact Ho |]. split; [exact Hm |].
  exact (install_INV s1 index rest _ HI1 Hf).
Qed.

(** The validator accepts the cid of a just-accepted connection. *)
Lemma accept_cid_validates (inv : Z) (s s' : TcpServer) (cid port : Z) (index : nat) :
  cid = BuildConnectionId (magic_number s) port (Z.of_nat index) ->
  cid <> inv -> 0 <= magic_number s < 65536 ->
  Z.of_nat index <= InvalidIndex ->
  GetUserId cid < max_connections (options s) ->
  options s' = options s -> magic_number s' = magic_number s ->
  CheckConnectionId inv s' cid = Z.of_nat index.
Proof.
  intros Hcid Hinv Hmag Hix Huid Ho Hm.
  assert (Hu : GetUserId cid = Z.of_nat index).
  { rewrite Hcid, GetUserId_Build. change 4294967295 with (Z.ones 32).
    apply land_small; [lia |]. unfold InvalidIndex in Hix. lia. }
  unfold CheckConnectionId. rewrite Ho, Hm.
  replace (cid =? inv) with false by (symmetry; apply Z.eqb_neq; exact Hinv).
  rewrite Hcid at 1. rewrite GetMagicNumber_Build.
  change 65535 with (Z.ones 16). rewrite land_small by lia. rewrite Z.eqb_refl.
  cbn [negb]. rewrite Hu. rewrite Hu in Huid.
  replace (Z.of_nat index >=? max_connections (options s)) with false
    by (symmetry; rewrite Z.geb_leb; apply Z.leb_gt; exact Huid).
  reflexivity.
Qed.

Lemma INV_run_accept (s : TcpServer) (sock port now : Z) :
  INV s -> INV (run (Linux.OnNewConnection s sock port now)).
Proof.
  intros HI. destruct (Linux.OnNewConnection s sock port now) as [[s' eff] |] eqn:E.
  - exact (OnNewConnection_INV s s' sock port now eff HI E).
  - apply INV_empty; reflexivity.
Qed.

Lemma INV_full_s : INV full_s.
Proof.
  unfold full_s. generalize 100%nat as k. induction k as [| k IH].
  - apply init_ok_INV; reflexivity.
  - cbn [Nat.iter]. apply INV_run_accept. exact IH.
Qed.

(** An accept with a free slot takes the first index of the free list: the
    new connection object and a fresh timeout entry with deadline
    [now + connection_timeout] are installed there, the cid carries that
    index, the rest of the table is untouched and the state stays
    consistent. *)
Theorem linux_accept_takes_first_free_index (s : TcpServer) (sock port now : Z)
    (index : nat) (rest : list nat) (HI : INV s)
    (Hfree : free_index_list s = index :: rest) :
  exists s',
    Linux.OnNewConnection s sock port now =
      Some (s', [ConnNew (next_id s); ConnSetProtocol (next_id s);
                 ConnInit (next_id s) (BuildConnectionId (magic_number s) port (Z.of_nat index)) sock]) /\
    INV s' /\ free_index_list s' = rest /\
    mgr s' !! index = Some (mkSlot (Some (next_id s)) (Some (S (next_id s)))) /\
    In (mkEntry (S (next_id s)) (now + connection_timeout (options s)) index)
       (timeout_record_list s') /\
    (forall j, j <> index -> mgr s' !! j = mgr s !! j).
Proof.
  destruct (accept_free_slot s sock port now index rest HI Hfree)
    as (s' & H1 & H2 & H3 & H4 & H5 & H6 & _).
  exists s'. repeat match goal with |- _ /\ _ => split end; assumption.
Qed.

Lemma linux_accept_takes_first_free_index_witness :
  INV one_s1 /\ free_index_list one_s1 = seq 1 99 /\
  exists s', Linux.OnNewConnection one_s1 11 80 T0 =
    Some (s', [ConnNew 2; ConnSetProtocol 2; ConnInit 2 (BuildConnectionId magic_T0 80 1) 11]).
Proof.
  assert (Hf : free_index_list one_s1 = 1%nat :: seq 2 98) by (vm_compute; reflexivity).
  split; [exact INV_one_s1 |]. split; [vm_compute; reflexivity |].
  destruct (linux_accept_takes_first_free_index one_s1 11 80 T0 1 (seq 2 98) INV_one_s1 Hf)
    as (s' & H & _).
  exists s'. rewrite H. vm_compute. reflexivity.
Defined.

(** An accept on a full table below [max_connections] grows the table to
    [min (2 * size, max_connections)] slots, keeps the old slots, puts the
    connection in the first new slot and the other new indices on the free
    list, and stays consistent; a table that was cleared to no slots does
    not grow, and the accept faults on the empty free list. *)
Theorem linux_accept_grows_full_table (s : TcpServer) (sock port now : Z)
    (HI : INV s) (Hfree : free_index_list s = [])
    (Hcap : Z.of_nat (length (mgr s)) < max_connections (options s)) :
  (mgr s = [] -> Linux.OnNewConnection s sock port now = None) /\
  ((0 < length (mgr s))%nat ->
   exists s',
     Linux.OnNewConnection s sock port now =
       Some (s', [ConnNew (next_id s); ConnSetProtocol (next_id s);
                  ConnInit (next_id s)
                    (BuildConnectionId (magic_number s) port (Z.of_nat (length (mgr s)))) sock]) /\
     INV s' /\
     length (mgr s') = Nat.min (length (mgr s) * 2) (Z.to_nat (max_connections (options s))) /\
     mgr s' !! length (mgr s) = Some (mkSlot (Some (next_id s)) (Some (S (next_id s)))) /\
     free_index_list s' = seq (S (length (mgr s))) (length (mgr s') - S (length (mgr s))) /\
     (forall j, (j < length (mgr s))%nat -> mgr s' !! j = mgr s !! j)).
Proof.
  assert (Hg : (match free_index_list s with [] => true | _ => false end)
               && (Z.of_nat (length (mgr s)) >=? max_connections (options s)) = false).
  { rewrite Hfree. cbn [andb]. rewrite Z.geb_leb. apply Z.leb_gt. exact Hcap. }
  assert (Hacc : Linux.OnNewConnection s sock port now =
                 match free_index_list (Linux.grow s) with
                 | [] => None
                 | index :: rest =>
                     let? sl := mgr (Linux.grow s) !! index in
                     Some (set_next_id (S (S (next_id (Linux.grow s))))
                             (set_timeouts
                                (tl_insert (mkEntry (S (next_id (Linux.grow s)))
                                              (now + connection_timeout (options (Linux.grow s))) index)
                                   (timeout_record_list (Linux.grow s)))
                                (set_mgr (<[index := mkSlot (Some (next_id (Linux.grow s)))
                                                      (Some (S (next_id (Linux.grow s))))]>
                                            (mgr (Linux.grow s)))
                                   (set_free rest (Linux.grow s)))),
                           [ConnNew (next_id (Linux.grow s)); ConnSetProtocol (next_id (Linux.grow s));
                            ConnInit (next_id (Linux.grow s))
                              (BuildConnectionId (magic_number (Linux.grow s)) port (Z.of_nat index))
                              sock])
                 end).
  { unfold Linux.OnNewConnection. rewrite Hg. cbv zeta. rewrite Hfree. reflexivity. }
  split.
  - intros Hm. rewrite Hacc. unfold Linux.grow. cbv zeta. rewrite Hm.
    unfold set_free, set_mgr. cbn [free_index_list length]. rewrite Hfree.
    replace (if Nat.ltb (0 * 2) (Z.to_nat (max_connections (options s)))
             then (0 * 2)%nat else Z.to_nat (max_connections (options s))) with 0%nat
      by (destruct (Nat.ltb_spec (0 * 2) (Z.to_nat (max_connections (options s)))); lia).
    reflexivity.
  - intros Hpos.
    pose proof (grown_INV s HI Hg) as HI1. rewrite Hfree in HI1.
    set (n := if Nat.ltb (length (mgr s) * 2) (Z.to_nat (max_connections (options s)))
              then (length (mgr s) * 2)%nat else Z.to_nat (max_connections (options s))).
    assert (Hn : (S (length (mgr s)) <= n)%nat /\
                 n = Nat.min (length (mgr s) * 2) (Z.to_nat (max_connections (options s)))).
    { unfold n. destruct (Nat.ltb_spec (length (mgr s) * 2) (Z.to_nat (max_connections (options s))));
        lia. }
    destruct (grow_facts s Hfree ltac:(fold n; lia)) as (Hlen & Hf1 & Hold & Hid & Ho & Hm).
    fold n in Hlen, Hf1.
    assert (Hf2 : free_index_list (Linux.grow s) =
                  length (mgr s) :: seq (S (length (mgr s))) (n - S (length (mgr s)))).
    { rewrite Hf1. replace (n - length (mgr s))%nat with (S (n - S (length (mgr s)))) by lia.
      reflexivity. }
    destruct (accept_free_slot (Linux.grow s) sock port now _ _ HI1 Hf2)
      as (s' & Ha & HI' & Hfr' & Hsl' & _ & Hoth & _).
    assert (Hlen' : length (mgr s') = n).
    { destruct HI' as (_ & _ & _ & _). rewrite <- Hlen.
      destruct (accept_result (Linux.grow s) s' sock port now
                  (BuildConnectionId (magic_number (Linux.grow s)) port
                     (Z.of_nat (length (mgr s)))) (next_id (Linux.grow s)) HI1 Ha)
        as (? & ? & _).
      revert Ha. unfold Linux.OnNewConnection. rewrite Hf2. cbn [andb]. cbv zeta.
      rewrite Hf2. cbn [andb].
      destruct (mgr (Linux.grow s) !! length (mgr s)); [| discriminate].
      intros Ha. injection Ha as <-. unfold set_next_id, set_timeouts, set_mgr, set_free.
      cbn [mgr]. apply length_insert. }
    exists s'. rewrite Hacc. split.
    + revert Ha. unfold Linux.OnNewConnection. rewrite Hf2. cbn [andb]. cbv zeta.
      rewrite Hf2. rewrite Hid, Hm. auto.
    + split; [exact HI' |]. split; [rewrite Hlen'; apply Hn |].
      split; [rewrite Hid in Hsl'; exact Hsl' |].
      split; [rewrite Hfr', Hlen'; reflexivity |].
      intros j Hj. rewrite Hoth by lia. apply Hold. exact Hj.
Qed.

Lemma linux_accept_grows_full_table_witness :
  INV full_s /\ free_index_list full_s = [] /\
  Z.of_nat (length (mgr full_s)) < max_connections (options full_s) /\
  exists s' eff, Linux.OnNewConnection full_s 12 80 T0 = Some (s', eff) /\
    length (mgr s') = 150%nat.
Proof.
  assert (Hf : free_index_list full_s = []) by (vm_compute; reflexivity).
  assert (Hc : Z.of_nat (length (mgr full_s)) < max_connections (options full_s))
    by (vm_compute; reflexivity).
  split; [exact INV_full_s |]. split; [exact Hf |]. split; [exact Hc |].
  destruct (linux_accept_grows_full_table full_s 12 80 T0 INV_full_s Hf Hc) as [_ H].
  destruct H as (s' & Ha & _ & Hlen & _).
  - vm_compute. lia.
  - exists s'. eexists. split; [exact Ha |]. rewrite Hlen. vm_compute. reflexivity.
Defined.

(** A receive or send event for a live connection whose cid validates: on
    success the connection stays in its slot and its only timeout entry is
    re-armed to [now + connection_timeout]; on failure the connection is
    shut down abruptly and deleted, its slot emptied and its index put at
    the back of the free list.  The state stays consistent either way. *)
Theorem linux_io_event_rearms_or_deletes (inv : Z) (s : TcpServer) (cid now : Z)
    (i c : nat) (sl : Slot) (HI : INV s)
    (Hv : CheckConnectionId inv s cid = Z.of_nat i) (Hvi : Z.of_nat i <> InvalidIndex)
    (Hsl : mgr s !! i = Some sl) (Hc : first sl = Some c) :
  (exists s', Linux.OnRecvEvent inv s cid true now = Some (s', [ConnDoRecv c]) /\
     Linux.OnSendEvent inv s cid true now = Some (s', [ConnDoSend c]) /\
     INV s' /\ free_index_list s' = free_index_list s /\
     (exists t, mgr s' !! i = Some (mkSlot (Some c) (Some t))) /\
     (exists e, In e (timeout_record_list s') /\ eidx e = i) /\
     (forall e, In e (timeout_record_list s') -> eidx e = i ->
        deadline e = now + connection_timeout (options s))) /\
  (exists s', Linux.OnRecvEvent inv s cid false now =
       Some (s', [ConnDoRecv c; LogError "tcpserver: Failed to post async recv";
                  ConnShutdown c true; ConnDelete c]) /\
     Linux.OnSendEvent inv s cid false now =
       Some (s', [ConnDoSend c; LogError "tcpserver: Failed to post async send";
                  ConnShutdown c true; ConnDelete c]) /\
     INV s' /\ mgr s' !! i = Some empty_slot /\
     free_index_list s' = free_index_list s ++ [i] /\
     (forall e, In e (timeout_record_list s') -> eidx e <> i)).
Proof.
  destruct (refresh_INV s i c sl now HI Hsl Hc)
    as (s1 & Hr & HI1 & _ & _ & Hf1 & (t & Hl1 & He1) & Hd1).
  destruct (delete_INV s i c sl HI Hsl Hc)
    as (s2 & Hd & HI2 & He2 & Hf2 & _ & _ & _ & Ht2).
  assert (Hne : (Z.of_nat i =? InvalidIndex) = false) by (apply Z.eqb_neq; exact Hvi).
  unfold Linux.OnRecvEvent, Linux.OnSendEvent. cbv beta zeta.
  rewrite !Hv, !Hne, !Nat2Z.id, !Hsl, !Hc. cbn [negb]. rewrite !Hr, !Hd.
  cbn [fst snd app]. split.
  - exists s1. split; [reflexivity |]. split; [reflexivity |].
    split; [exact HI1 |]. split; [exact Hf1 |].
    split; [exists t; exact Hl1 |]. split; [eexists; split; [exact He1 | reflexivity] |].
    exact Hd1.
  - exists s2. split; [reflexivity |]. split; [reflexivity |].
    split; [exact HI2 |]. split; [exact He2 |]. split; [exact Hf2 |].
    intros e He. apply Ht2 in He as [_ He]. exact He.
Qed.

Lemma linux_io_event_rearms_or_deletes_witness :
  INV one_s1 /\
  exists s', Linux.OnRecvEvent InvalidAllOnes one_s1 (BuildConnectionId magic_T0 80 0) true (T0 + 30) =
               Some (s', [ConnDoRecv 0]).
Proof.
  split; [exact INV_one_s1 |].
  destruct (linux_io_event_rearms_or_deletes InvalidAllOnes one_s1
              (BuildConnectionId magic_T0 80 0) (T0 + 30) 0 0 (mkSlot (Some 0%nat) (Some 1%nat))
              INV_one_s1) as [(s' & H & _) _].
  - vm_compute. reflexivity.
  - vm_compute. discriminate.
  - vm_compute. reflexivity.
  - reflexivity.
  - exists s'. exact H.
Defined.

(** A connection just accepted on a consistent state, whose cid is not the
    invalid sentinel and embeds an index below [max_connections], is
    reached by [Send] and the four per-connection data calls; after
    [CloseConnection] on the same cid shuts it down gracefully and deletes
    it, every one of these calls answers [false] and touches nothing. *)
Theorem linux_accepted_connection_reachable_until_closed (inv : Z) (s s' : TcpServer)
    (sock port now cid ptr : Z) (ok : bool) (c : nat) (HI : INV s)
    (Hacc : Linux.OnNewConnection s sock port now =
              Some (s', [ConnNew c; ConnSetProtocol c; ConnInit c cid sock]))
    (Hinv : cid <> inv) (Hmag : 0 <= magic_number s < 65536)
    (Hsize : Z.of_nat (length (mgr s')) <= InvalidIndex)
    (Huid : GetUserId cid < max_connections (options s)) :
  Linux.Send inv s' cid ok = Some (ok, [ConnSend c]) /\
  Linux.SetUserData inv s' cid ptr = Some (true, [ConnSetUserData c ptr]) /\
  Linux.GetUserData inv s' cid = Some (true, [ConnGetUserData c]) /\
  Linux.SetExtendInfo inv s' cid ptr = Some (true, [ConnSetExtendInfo c ptr]) /\
  Linux.GetExtendInfo inv s' cid = Some (true, [ConnGetExtendInfo c]) /\
  exists s'', Linux.CloseConnection inv s' cid =
                Some (true, s'', [ConnShutdown c false; ConnDelete c]) /\
    Linux.Send inv s'' cid ok = Some (false, []) /\
    Linux.SetUserData inv s'' cid ptr = Some (false, []) /\
    Linux.GetUserData inv s'' cid = Some (false, []) /\
    Linux.SetExtendInfo inv s'' cid ptr = Some (false, []) /\
    Linux.GetExtendInfo inv s'' cid = Some (false, []).
Proof.
  destruct (accept_result s s' sock port now cid c HI Hacc)
    as (index & t & Hcid & Hsl & Ho & Hm & HI').
  assert (Hlt : (index < length (mgr s'))%nat) by (eapply lookup_lt_Some; exact Hsl).
  assert (Hv : CheckConnectionId inv s' cid = Z.of_nat index)
    by (apply (accept_cid_validates inv s s' cid port index); auto; lia).
  assert (Hne : (Z.of_nat index =? InvalidIndex) = false).
  { apply Z.eqb_neq. intros E. assert (Z.of_nat index < InvalidIndex) by (unfold InvalidIndex in *; lia).
    lia. }
  destruct (delete_INV s' index c _ HI' Hsl eq_refl)
    as (s'' & Hd & _ & He & _ & Ho' & Hm' & _ & _).
  assert (Hv' : CheckConnectionId inv s'' cid = Z.of_nat index)
    by (rewrite (Check_fields inv s' s'' cid Ho' Hm'); exact Hv).
  unfold Linux.Send, Linux.SetUserData, Linux.GetUserData, Linux.SetExtendInfo,
    Linux.GetExtendInfo.
  cbv beta zeta. rewrite !Hv, !Hne, !Nat2Z.id, !Hsl. cbn [first].
  repeat match goal with |- _ /\ _ => split end; try reflexivity.
  exists s''. rewrite Close_unfold, Hv, Hne, Nat2Z.id, Hsl. cbn [first]. rewrite Hd.
  cbn [fst snd]. rewrite !Hv', !Hne, !Nat2Z.id, !He. cbn [first].
  repeat match goal with |- _ /\ _ => split end; reflexivity.
Qed.

Lemma linux_accepted_connection_reachable_until_closed_witness :
  Linux.Send InvalidAllOnes sweep_s (BuildConnectionId magic_T0 80 1) true =
    Some (true, [ConnSend 2]).
Proof.
  assert (Hacc : Linux.OnNewConnection one_s1 11 80 (T0 + 10) =
                 Some (sweep_s, [ConnNew 2; ConnSetProtocol 2;
                                 ConnInit 2 (BuildConnectionId magic_T0 80 1) 11]))
    by (vm_compute; reflexivity).
  assert (Hm : magic_number one_s1 = 24414) by (vm_compute; reflexivity).
  destruct (linux_accepted_connection_reachable_until_closed InvalidAllOnes one_s1 sweep_s
              11 80 (T0 + 10) (BuildConnectionId magic_T0 80 1) 0 true 2 INV_one_s1 Hacc)
    as (H & _).
  - vm_compute. discriminate.
  - rewrite Hm. lia.
  - vm_compute. discriminate.
  - vm_compute. reflexivity.
  - exact H.
Defined.

(** [Init] that fails in one of its three sub-component steps leaves the
    server stopped with its table, index, free list, options and magic
    number unchanged; the steps run in order up to the failing one; and a
    later [Init] whose steps all succeed is accepted. *)
Theorem linux_failed_init_can_be_retried (s : TcpServer) (o : RaptorOptions) (n : Z)
    (l r d : bool) (Hs : shutdown s = true) (Hfail : l && r && d = false) :
  exists m s1 eff,
    Linux.Init s o n l r d = (Error m, s1, eff) /\
    shutdown s1 = true /\ mgr s1 = mgr s /\ free_index_list s1 = free_index_list s /\
    timeout_record_list s1 = timeout_record_list s /\ options s1 = options s /\
    magic_number s1 = magic_number s /\
    eff = (if l then (if r then [ListenerInit; RecvThreadInit; SendThreadInit]
                      else [ListenerInit; RecvThreadInit])
           else [ListenerInit]) /\
    fst (fst (Linux.Init s1 o n true true true)) = ErrorNone.
Proof.
  destruct l, r, d; try discriminate Hfail; unfold Linux.Init; rewrite Hs; cbn [negb];
    do 3 eexists; (split; [reflexivity |]);
    cbn [shutdown mgr free_index_list timeout_record_list options magic_number];
    rewrite ?Hs; repeat match goal with |- _ /\ _ => split end; reflexivity.
Qed.

Lemma linux_failed_init_can_be_retried_witness :
  shutdown new_server = true /\
  exists m s1 eff, Linux.Init new_server (mkOptions 100 60) T0 true false true = (Error m, s1, eff).
Proof.
  split; [reflexivity |].
  destruct (linux_failed_init_can_be_retried new_server (mkOptions 100 60) T0 true false true
              eq_refl eq_refl) as (m & s1 & eff & H & _).
  exists m, s1, eff. exact H.
Defined.

Lemma add_port_fold_error (answers : list (option string)) :
  forall m l,
  fold_left Linux.add_port_step answers (ChainError m l) =
    ChainError m (l ++ flat_map (fun a => match a with Some e => [e] | None => [] end) answers).
Proof.
  induction answers as [| a r IH]; intros m l; cbn [fold_left flat_map].
  - rewrite app_nil_r. reflexivity.
  - destruct a as [e |]; cbn [Linux.add_port_step app]; rewrite IH;
      [rewrite <- app_assoc; reflexivity | reflexivity].
Qed.

(** On a running server, [AddListeningPort] tries every resolved address
    and reports success only when all of them succeed; otherwise the
    result is the first error with the later errors appended in order. *)
Theorem linux_add_listening_port_collects_errors (s : TcpServer) (addr : string)
    (answers : list (option string)) :
  Linux.AddListeningPort s (Some addr) (inr answers) =
    (if shutdown s then (ChainError "tcp server uninitialized" [], 0%nat)
     else (match flat_map (fun a => match a with Some e => [e] | None => [] end) answers with
           | [] => ChainNone
           | m :: ms => ChainError m ms
           end, length answers)).
Proof.
  unfold Linux.AddListeningPort. destruct (shutdown s); [reflexivity |]. f_equal.
  induction answers as [| a r IH]; [reflexivity |].
  destruct a as [e |]; cbn [fold_left flat_map Linux.add_port_step app].
  - rewrite add_port_fold_error. reflexivity.
  - exact IH.
Qed.

Lemma thread_run_drain (q : list Mq.Node) :
  forall n, (length q <= n)%nat ->
  Mq.thread_run n (Mq.mkState false q (Z.of_nat (length q))) =
    (map Mq.Dispatch q, Mq.mkState false [] 0).
Proof.
  induction q as [| m q IH]; intros n Hn.
  - destruct n; reflexivity.
  - destruct n as [| n]; [cbn [length] in Hn; lia |].
    assert (Hst : Mq.step (Mq.mkState false (m :: q) (Z.of_nat (length (m :: q)))) =
                  (Mq.Popped (Some (Mq.Dispatch m)), Mq.mkState false q (Z.of_nat (length q)))).
    { unfold Mq.step. cbn [Mq.shutdown Mq.count Mq.mpscq length].
      replace (Z.of_nat (S (length q)) =? 0) with false by (symmetry; apply Z.eqb_neq; lia).
      replace (Z.of_nat (S (length q)) - 1) with (Z.of_nat (length q)) by lia.
      reflexivity. }
    cbn [Mq.thread_run]. rewrite Hst. rewrite IH by (cbn [length] in Hn; lia).
    reflexivity.
Qed.

(** While the counter matches the queue, the dispatch thread delivers the
    queued messages oldest first, each to the callback for its kind, and
    then blocks with an empty queue and a zero counter; the producers keep
    the counter in step, so a connection's arrival, data and close posted
    after them come out last and in that order. *)
Theorem dispatch_thread_delivers_in_order (st : Mq.State) (n : nat)
    (Hs : Mq.shutdown st = false) (Hc : Mq.count st = Z.of_nat (length (Mq.mpscq st)))
    (Hn : (length (Mq.mpscq st) <= n)%nat) :
  Mq.thread_run n st = (map Mq.Dispatch (Mq.mpscq st), Mq.mkState false [] 0) /\
  forall c d,
    Mq.thread_run (n + 3)
      (Mq.OnConnectionClosed c (Mq.OnDataReceived c d (Mq.OnConnectionArrived c st))) =
    (map Mq.Dispatch (Mq.mpscq st) ++
       [Mq.OnConnected c; Mq.OnMessageReceived c d; Mq.OnClosed c],
     Mq.mkState false [] 0).
Proof.
  split.
  - destruct st as [sh q cnt]. cbn [Mq.shutdown Mq.count Mq.mpscq] in *. subst.
    apply thread_run_drain. exact Hn.
  - intros c d.
    unfold Mq.OnConnectionClosed, Mq.OnDataReceived, Mq.OnConnectionArrived, Mq.push.
    cbn [Mq.shutdown Mq.mpscq Mq.count]. rewrite Hs, Hc, <- !app_assoc. cbn [app].
    replace (Z.of_nat (length (Mq.mpscq st)) + 1 + 1 + 1) with
      (Z.of_nat (length (Mq.mpscq st ++ [Mq.mkNode kNewConnection c [];
                                          Mq.mkNode kRecvAMessage c d;
                                          Mq.mkNode kCloseClient c []])))
      by (rewrite length_app; cbn [length]; lia).
    rewrite thread_run_drain by (rewrite length_app; cbn [length]; lia).
    rewrite map_app. reflexivity.
Qed.

Lemma dispatch_thread_delivers_in_order_witness :
  Mq.thread_run 2 (Mq.mkState false [Mq.mkNode kNewConnection 7 []; Mq.mkNode kCloseClient 7 []] 2) =
    ([Mq.OnConnected 7; Mq.OnClosed 7], Mq.mkState false [] 0).
Proof.
  destruct (dispatch_thread_delivers_in_order
              (Mq.mkState false [Mq.mkNode kNewConnection 7 []; Mq.mkNode kCloseClient 7 []] 2) 2
              eq_refl eq_refl (le_n 2)) as [H _].
  exact H.
Defined.


Lemma connect_loop_eintr (k : nat) (l : list Client.ConnectResult) (errno : Z) :
  Client.connect_loop (repeat (Client.ConnectFail Client.EINTR) (S k) ++ l) errno =
  Client.connect_loop l Client.EINTR.
Proof.
  revert errno. induction k as [| k IH]; intros errno;
    cbn [repeat app Client.connect_loop]; rewrite Z.eqb_refl; [reflexivity |].
  apply (IH Client.EINTR).
Qed.

Lemma connect_loop_fail (k : nat) (e : Z) (l : list Client.ConnectResult) (errno : Z) :
  e <> Client.EINTR ->
  Client.connect_loop (repeat (Client.ConnectFail Client.EINTR) k ++ Client.ConnectFail e :: l) errno =
  Some (-1, e).
Proof.
  intros He. destruct k as [| k].
  - cbn [repeat app Client.connect_loop].
    replace (e =? Client.EINTR) with false by (symmetry; apply Z.eqb_neq; exact He).
    reflexivity.
  - rewrite connect_loop_eintr. cbn [Client.connect_loop].
    replace (e =? Client.EINTR) with false by (symmetry; apply Z.eqb_neq; exact He).
    reflexivity.
Qed.

(** [AsyncConnect] retries a [connect] interrupted by [EINTR]; it then
    judges the outcome by [errno] alone, even when [connect] succeeded: a
    success right after an interruption is reported as a failure (the socket
    is shut down and [-1] returned), and an immediate success counts only if
    [errno] already held [EWOULDBLOCK] or [EINPROGRESS]; a failure is
    accepted exactly when [errno] is one of these two. *)
Theorem client_async_connect_judged_by_errno (sock errno e : Z) (k : nat)
    (rest : list Client.ConnectResult) :
  Client.AsyncConnect (inr sock)
    (repeat (Client.ConnectFail Client.EINTR) (S k) ++ Client.ConnectOk :: rest) errno =
    Some (Error "connect", -1, [Client.SocketShutdown sock]) /\
  Client.AsyncConnect (inr sock) (Client.ConnectOk :: rest) errno =
    (if (errno =? Client.EWOULDBLOCK) || (errno =? Client.EINPROGRESS)
     then Some (ErrorNone, sock, [])
     else Some (Error "connect", -1, [Client.SocketShutdown sock])) /\
  (e <> Client.EINTR ->
   Client.AsyncConnect (inr sock)
     (repeat (Client.ConnectFail Client.EINTR) k ++ Client.ConnectFail e :: rest) errno =
     (if (e =? Client.EWOULDBLOCK) || (e =? Client.EINPROGRESS)
      then Some (ErrorNone, sock, [])
      else Some (Error "connect", -1, [Client.SocketShutdown sock]))).
Proof.
  unfold Client.AsyncConnect. split; [| split].
  - rewrite connect_loop_eintr. reflexivity.
  - cbn [Client.connect_loop].
    destruct (errno =? Client.EWOULDBLOCK), (errno =? Client.EINPROGRESS); reflexivity.
  - intros He. rewrite (connect_loop_fail k e rest errno He).
    destruct (e =? Client.EWOULDBLOCK), (e =? Client.EINPROGRESS); reflexivity.
Qed.

(** [Shutdown] of a running client joins its thread, shuts its socket down,
    clears both buffers and leaves it offline; afterwards [Send] refuses,
    [Connect] is refused as uninitialised, a second [Shutdown] does nothing,
    and [Init] starts it again, still offline. *)
Theorem client_shutdown_then_refuses (c : Client.TcpClient) (hdr : nat -> list Byte.byte)
    (buff : list Byte.byte) (addr : string) (resolved : Status + list Z)
    (prepare : Status + Z) (answers : list Client.ConnectResult) (errno : Z)
    (Hrun : Client.shutdown c = false) :
  Client.Shutdown c =
    (Client.mkClient true (Client.is_connected c) (-1),
     [Client.ThreadJoin; Client.SocketShutdown (Client.fd c); Client.SndClear; Client.RcvClear]) /\
  Client.IsOnline (fst (Client.Shutdown c)) = false /\
  Client.Send hdr (fst (Client.Shutdown c)) buff = (false, []) /\
  Client.Connect (fst (Client.Shutdown c)) addr resolved prepare answers errno =
    Some (Error "TcpClient is not initialized", fst (Client.Shutdown c), []) /\
  Client.Shutdown (fst (Client.Shutdown c)) = (fst (Client.Shutdown c), []) /\
  Client.Init (fst (Client.Shutdown c)) =
    (ErrorNone, Client.mkClient false false (-1), [Client.ThreadStart]).
Proof.
  assert (Hsd : Client.Shutdown c =
                (Client.mkClient true (Client.is_connected c) (-1),
                 [Client.ThreadJoin; Client.SocketShutdown (Client.fd c); Client.SndClear;
                  Client.RcvClear])) by (unfold Client.Shutdown; rewrite Hrun; reflexivity).
  rewrite Hsd. cbn [fst].
  repeat match goal with |- _ /\ _ => split end; reflexivity.
Qed.

Lemma client_shutdown_then_refuses_witness :
  Client.Shutdown (Client.mkClient false true 7) =
    (Client.mkClient true true (-1),
     [Client.ThreadJoin; Client.SocketShutdown 7; Client.SndClear; Client.RcvClear]).
Proof.
  destruct (client_shutdown_then_refuses (Client.mkClient false true 7) (fun _ => [])
              [] EmptyString (inr []) (inr 9) [] 0 eq_refl) as [H _].
  exact H.
Defined.

(** A [Connect] on a running client that fails, because no socket could be
    prepared or because [connect] failed with another [errno] than
    [EWOULDBLOCK] or [EINPROGRESS], leaves the client offline ([fd = -1]):
    only the new socket is shut down, the socket the client held before is
    neither shut down nor kept.  An empty address is refused with the
    client unchanged. *)
Theorem client_failed_connect_goes_offline (c : Client.TcpClient) (a : Ascii.ascii)
    (addr : string) (ip : Z) (ips : list Z) (sock errno e : Z) (err : Status)
    (answers : list Client.ConnectResult) (resolved : Status + list Z) (prepare : Status + Z)
    (Hrun : Client.shutdown c = false) :
  Client.Connect c (String a addr) (inr (ip :: ips)) (inl err) answers errno =
    Some (err, Client.mkClient false (Client.is_connected c) (-1), []) /\
  (e <> Client.EINTR -> e <> Client.EWOULDBLOCK -> e <> Client.EINPROGRESS ->
   Client.Connect c (String a addr) (inr (ip :: ips)) (inr sock)
     (Client.ConnectFail e :: answers) errno =
   Some (Error "connect", Client.mkClient false (Client.is_connected c) (-1),
         [Client.SocketShutdown sock])) /\
  Client.Connect c EmptyString resolved prepare answers errno =
    Some (Error "Invalid parameter", c, []).
Proof.
  unfold Client.Connect. rewrite Hrun. split; [reflexivity |]. split; [| reflexivity].
  intros H1 H2 H3. unfold Client.AsyncConnect. cbn [Client.connect_loop].
  replace (e =? Client.EINTR) with false by (symmetry; apply Z.eqb_neq; exact H1).
  replace (e =? Client.EWOULDBLOCK) with false by (symmetry; apply Z.eqb_neq; exact H2).
  replace (e =? Client.EINPROGRESS) with false by (symmetry; apply Z.eqb_neq; exact H3).
  reflexivity.
Qed.

Lemma client_failed_connect_goes_offline_witness :
  Client.Connect (Client.mkClient false true 7) "h" (inr [1]) (inr 9) [Client.ConnectFail 111] 0 =
  Some (Error "connect", Client.mkClient false true (-1), [Client.SocketShutdown 9]).
Proof.
  refine (proj1 (proj2 (client_failed_connect_goes_offline (Client.mkClient false true 7) _ _
                          1 [] 9 0 111 ErrorNone [] (inr []) (inr 9) eq_refl)) _ _ _);
    unfold Client.EINTR, Client.EWOULDBLOCK, Client.EINPROGRESS; lia.
Defined.

(** [RefreshTime] on Windows re-arms a live slot like Linux's [refresh]. *)
Lemma windows_refresh_live (s : TcpServer) (i c : nat) (sl : Slot) (now : Z) :
  mgr s !! i = Some sl -> first sl = Some c ->
  Windows.RefreshTime s i now = Linux.refresh s i sl now.
Proof.
  intros Hsl Hc. unfold Windows.RefreshTime, Linux.refresh. rewrite Hsl, Hc. reflexivity.
Qed.

(** Windows' receive and send events leave a live connection's slot, index
    and free list exactly as Linux's do, on success and on failure; on a
    validated cid whose slot holds no connection they do nothing. *)
Theorem windows_io_events_match_linux_state (inv : Z) (s : TcpServer) (cid now : Z)
    (ok : bool) :
  (forall i sl, CheckConnectionId inv s cid = Z.of_nat i -> Z.of_nat i <> InvalidIndex ->
     mgr s !! i = Some sl -> first sl = None ->
     Windows.OnRecvEvent inv s cid ok now = Some (s, []) /\
     Windows.OnSendEvent inv s cid ok now = Some (s, [])) /\
  (forall i c sl, CheckConnectionId inv s cid = Z.of_nat i -> Z.of_nat i <> InvalidIndex ->
     mgr s !! i = Some sl -> first sl = Some c ->
     option_map fst (Windows.OnRecvEvent inv s cid ok now) =
       option_map fst (Linux.OnRecvEvent inv s cid ok now) /\
     option_map fst (Windows.OnSendEvent inv s cid ok now) =
       option_map fst (Linux.OnSendEvent inv s cid ok now)).
Proof.
  split.
  - intros i sl Hv Hvi Hsl Hc.
    assert (Hne : (Z.of_nat i =? InvalidIndex) = false) by (apply Z.eqb_neq; exact Hvi).
    unfold Windows.OnRecvEvent, Windows.OnSendEvent, Windows.GetConnection. cbv beta zeta.
    rewrite !Hv, !Hne, !Nat2Z.id, !Hsl, !Hc. split; reflexivity.
  - intros i c sl Hv Hvi Hsl Hc.
    assert (Hne : (Z.of_nat i =? InvalidIndex) = false) by (apply Z.eqb_neq; exact Hvi).
    unfold Windows.OnRecvEvent, Windows.OnSendEvent, Windows.GetConnection,
      Linux.OnRecvEvent, Linux.OnSendEvent.
    cbv beta zeta. rewrite !Hv, !Hne, !Nat2Z.id, !Hsl, !Hc.
    destruct ok; cbn [negb].
    + rewrite (windows_refresh_live s i c sl now Hsl Hc).
      destruct (Linux.refresh s i sl now); split; reflexivity.
    + rewrite (windows_delete_live s i c sl Hsl Hc).
      destruct (Linux.DeleteConnection s i); split; reflexivity.
Qed.

(** ** Eviction through the public operations *)

Lemma Error_unfold (inv : Z) (s : TcpServer) (cid : Z) :
  Linux.OnErrorEvent inv s cid =
  (if CheckConnectionId inv s cid =? InvalidIndex then
     Some (s, [LogError "tcpserver: OnErrorEvent found invalid index"])
   else
     let? sl := mgr s !! Z.to_nat (CheckConnectionId inv s cid) in
     match first sl with
     | Some c =>
         let? r := Linux.DeleteConnection s (Z.to_nat (CheckConnectionId inv s cid)) in
         Some (fst r, ConnShutdown c true :: snd r)
     | None => Some (s, [])
     end).
Proof. reflexivity. Qed.

(** After one eviction through [CloseConnection] or [OnErrorEvent] on a
    consistent state, the cid validates as before and its slot is empty. *)
Lemma evicted_slot_empty (inv : Z) (s s1 : TcpServer) (cid : Z) (c : nat) (sl : Slot) :
  INV s -> (CheckConnectionId inv s cid =? InvalidIndex) = false ->
  mgr s !! Z.to_nat (CheckConnectionId inv s cid) = Some sl -> first sl = Some c ->
  exists s1 eff,
    Linux.DeleteConnection s (Z.to_nat (CheckConnectionId inv s cid)) = Some (s1, eff) /\
    CheckConnectionId inv s1 cid = CheckConnectionId inv s cid /\
    mgr s1 !! Z.to_nat (CheckConnectionId inv s cid) = Some empty_slot.
Proof.
  intros HI Hv Hsl Hc.
  destruct (delete_INV s _ c sl HI Hsl Hc) as (s2 & Hd & _ & Hemp & _ & Ho & Hm & _ & _).
  exists s2, [ConnDelete c]. split; [exact Hd |]. split; [| exact Hemp].
  exact (Check_fields inv s s2 cid Ho Hm).
Qed.

(** Claim C5: evicting an already-empty slot is a no-op.  In the Windows
    code [DeleteConnection] itself returns early on an empty slot.  In the
    Linux code the empty-slot check sits at the call sites: [CloseConnection]
    and [OnErrorEvent] leave the state unchanged (no effect) when the
    validated slot holds no connection, and on a consistent state a second
    [CloseConnection] or [OnErrorEvent] after an eviction by either of them
    leaves the slot table, the timeout index and the free list as the first
    eviction left them and emits no shutdown or delete: evicting twice is
    evicting once. *)
Theorem evict_empty_slot_noop (inv : Z) (s : TcpServer) (cid : Z) (HI : INV s) :
  (forall i sl, mgr s !! i = Some sl -> first sl = None ->
     Windows.DeleteConnection s i = Some (s, [])) /\
  (forall i sl, CheckConnectionId inv s cid = Z.of_nat i -> Z.of_nat i <> InvalidIndex ->
     mgr s !! i = Some sl -> first sl = None ->
     Linux.CloseConnection inv s cid = Some (true, s, []) /\
     Linux.OnErrorEvent inv s cid = Some (s, [])) /\
  (forall b s1 eff, Linux.CloseConnection inv s cid = Some (b, s1, eff) ->
     Linux.CloseConnection inv s1 cid = Some (b, s1, []) /\
     exists eff', Linux.OnErrorEvent inv s1 cid = Some (s1, eff') /\
       (b = true -> eff' = [])) /\
  (forall s1 eff, Linux.OnErrorEvent inv s cid = Some (s1, eff) ->
     Linux.CloseConnection inv s1 cid =
       Some (negb (CheckConnectionId inv s cid =? InvalidIndex), s1, []) /\
     exists eff', Linux.OnErrorEvent inv s1 cid = Some (s1, eff') /\
       ((CheckConnectionId inv s cid =? InvalidIndex) = false -> eff' = [])).
Proof.
  split; [| split; [| split]].
  - intros i sl Hsl Hc. unfold Windows.DeleteConnection. rewrite Hsl, Hc. reflexivity.
  - intros i sl Hv Hvi Hsl Hc.
    assert (Hne : (Z.of_nat i =? InvalidIndex) = false) by (apply Z.eqb_neq; exact Hvi).
    rewrite Close_unfold, Error_unfold, Hv, Hne, Nat2Z.id, Hsl, Hc. split; reflexivity.
  - intros b s1 eff H. rewrite Close_unfold in H.
    destruct (CheckConnectionId inv s cid =? InvalidIndex) eqn:Hv.
    + injection H as <- <- <-. rewrite Close_unfold, Error_unfold, Hv.
      split; [reflexivity |]. eexists. split; [reflexivity | discriminate].
    + destruct (mgr s !! Z.to_nat (CheckConnectionId inv s cid)) as [sl |] eqn:Hsl;
        [| discriminate H].
      destruct (first sl) as [c |] eqn:Hc.
      * destruct (evicted_slot_empty inv s s1 cid c sl HI Hv Hsl Hc)
          as (s2 & eff2 & Hd & Hck & Hemp).
        rewrite Hd in H. cbn [fst snd] in H. injection H as <- <- <-.
        rewrite Close_unfold, Error_unfold, Hck, Hv, Hemp. cbn [first].
        split; [reflexivity |]. eexists. split; [reflexivity | auto].
      * injection H as <- <- <-. rewrite Close_unfold, Error_unfold, Hv, Hsl, Hc.
        split; [reflexivity |]. eexists. split; [reflexivity | auto].
  - intros s1 eff H. rewrite Error_unfold in H.
    destruct (CheckConnectionId inv s cid =? InvalidIndex) eqn:Hv.
    + injection H as <- <-. rewrite Close_unfold, Error_unfold, Hv.
      split; [reflexivity |]. eexists. split; [reflexivity | discriminate].
    + destruct (mgr s !! Z.to_nat (CheckConnectionId inv s cid)) as [sl |] eqn:Hsl;
        [| discriminate H].
      destruct (first sl) as [c |] eqn:Hc.
      * destruct (evicted_slot_empty inv s s1 cid c sl HI Hv Hsl Hc)
          as (s2 & eff2 & Hd & Hck & Hemp).
        rewrite Hd in H. cbn [fst snd] in H. injection H as <- <-.
        rewrite Close_unfold, Error_unfold, Hck, Hv, Hemp. cbn [first negb].
        split; [reflexivity |]. eexists. split; [reflexivity | auto].
      * injection H as <- <-. rewrite Close_unfold, Error_unfold, Hv, Hsl, Hc.
        split; [reflexivity |]. eexists. split; [reflexivity | auto].
Qed.

Lemma evict_empty_slot_noop_witness :
  INV one_s1 /\
  exists s1, Linux.OnErrorEvent InvalidAllOnes one_s1 (BuildConnectionId magic_T0 80 0) =
               Some (s1, [ConnShutdown 0 true; ConnDelete 0]) /\
    Linux.CloseConnection InvalidAllOnes s1 (BuildConnectionId magic_T0 80 0) =
      Some (true, s1, []) /\
    Linux.OnErrorEvent InvalidAllOnes s1 (BuildConnectionId magic_T0 80 0) = Some (s1, []).
Proof.
  split; [exact INV_one_s1 |].
  assert (H1 : exists s1, Linux.OnErrorEvent InvalidAllOnes one_s1 (BuildConnectionId magic_T0 80 0) =
                 Some (s1, [ConnShutdown 0 true; ConnDelete 0]))
    by (eexists; vm_compute; reflexivity).
  destruct H1 as [s1 H1]. exists s1. split; [exact H1 |].
  destruct (evict_empty_slot_noop InvalidAllOnes one_s1 (BuildConnectionId magic_T0 80 0)
              INV_one_s1) as (_ & _ & _ & H).
  destruct (H s1 _ H1) as (Hc & eff' & He & Heff).
  rewrite Heff in He by (vm_compute; reflexivity).
  split; [exact Hc | exact He].
Defined.
